(** * aws-dynamodb component: reconciliation core

    A shallow embedding of [utils.js] (index, stream and replica
    reconcilers, the table observer, the stream-identifier poller) and of
    [serverless.js] (the [deploy] and [remove] methods of the component),
    followed by the properties of the design document that concern them.

    Conventions of the embedding.
    - A JavaScript value that may be [null] or [undefined] is an [option];
      a string is truthy when it is not empty.
    - The AWS SDK is an interface [DynamoDB W] over an abstract provider
      state [W]: every operation maps the request and the provider state to
      either an [AwsError] (rejected promise) or a response, and a new
      provider state.
    - Asynchronous functions are computations [M A] over a [Machine]: the
      provider state, the trace of provider calls and sleeps issued so far,
      and the component's mutable [this.state].  A thrown exception keeps
      the machine reached so far.
    - [console.log] output is not part of the model. *)

From stdpp Require Import base option list sorting strings numbers.

Open Scope string_scope.
Open Scope list_scope.

(** ** JavaScript values *)

(** Truthiness of a string that may be [null]/[undefined]. *)
Definition truthy (v : option string) : bool :=
  match v with
  | Some s => negb (String.eqb s "")
  | None => false
  end.

(** Truthiness of a boolean field that may be missing. *)
Definition truthy_bool (v : option bool) : bool :=
  match v with
  | Some b => b
  | None => false
  end.

(** [Array.prototype.findIndex]: the position of the first element that
    satisfies [p], or [-1]. *)
Fixpoint findIndex_from {A} (p : A → bool) (l : list A) (i : Z) : Z :=
  match l with
  | [] => (-1)%Z
  | x :: l' => if p x then i else findIndex_from p l' (i + 1)%Z
  end.

Definition findIndex {A} (p : A → bool) (l : list A) : Z :=
  findIndex_from p l 0%Z.

(** [Array.prototype.sort] without comparator, on strings: ascending
    lexicographic order of the code units. *)
Definition sort (l : list string) : list string := merge_sort String.le l.

(** Ramda's [difference]: the elements of [first] that are not in
    [second], without duplicates, in order of first occurrence. *)
Fixpoint difference_go (seen : list string) (first : list string) : list string :=
  match first with
  | [] => []
  | x :: rest =>
      if bool_decide (x ∈ seen) then difference_go seen rest
      else x :: difference_go (x :: seen) rest
  end.

Definition difference (first second : list string) : list string :=
  difference_go second first.

(** ** Data model *)

Record AttributeDefinition := {
  AttributeName : string;
  AttributeType : string
}.

Record KeySchemaElement := {
  KeyAttributeName : string;
  KeyType : string
}.

Record GlobalSecondaryIndex := {
  IndexName : string;
  IndexKeySchema : list KeySchemaElement;
  ProjectionType : option string;
  IndexStatus : option string
}.

Definition LocalSecondaryIndex := GlobalSecondaryIndex.

Record StreamSpecification := {
  StreamEnabled : option bool;
  StreamViewType : option string
}.

Record Replica := { RegionName : string }.

(** The object [{ IndexName }] of a [Delete] entry. *)
Record IndexNameOnly := { DeleteIndexName : string }.

(** The object [indexUpdates]; a missing key is [None]. *)
Record IndexUpdates := {
  Create : option GlobalSecondaryIndex;
  Delete : option IndexNameOnly
}.

(** An element of [ReplicaUpdates]: [{Create: {RegionName}}] or
    [{Delete: {RegionName}}]. *)
Inductive ReplicaUpdate :=
  | ReplicaCreate (r : string)
  | ReplicaDelete (r : string).

(** [string | false] *)
Inductive StreamArn :=
  | ArnFalse
  | ArnString (s : string).

Global Instance AttributeDefinition_eq_dec : EqDecision AttributeDefinition.
Proof. solve_decision. Defined.
Global Instance KeySchemaElement_eq_dec : EqDecision KeySchemaElement.
Proof. solve_decision. Defined.
Global Instance GlobalSecondaryIndex_eq_dec : EqDecision GlobalSecondaryIndex.
Proof. solve_decision. Defined.
Global Instance StreamSpecification_eq_dec : EqDecision StreamSpecification.
Proof. solve_decision. Defined.
Global Instance StreamArn_eq_dec : EqDecision StreamArn.
Proof. solve_decision. Defined.

(** ** Pure reconcilers of utils.js *)

(** [getGlobalIndexesUpdates]; both parameters default to [[]]. *)
Definition toCreate (prevGlobalSecondaryIndexes globalSecondaryIndexes : list GlobalSecondaryIndex)
  : list GlobalSecondaryIndex :=
  filter
    (λ globalSecondardyIndex,
       findIndex
         (λ element, String.eqb (IndexName element) (IndexName globalSecondardyIndex))
         prevGlobalSecondaryIndexes = (-1)%Z)
    globalSecondaryIndexes.

Definition toDelete (prevGlobalSecondaryIndexes globalSecondaryIndexes : list GlobalSecondaryIndex)
  : list IndexNameOnly :=
  (λ g, {| DeleteIndexName := IndexName g |}) <$>
    filter
      (λ prevGlobalSecondaryIndex,
         findIndex
           (λ element, String.eqb (IndexName element) (IndexName prevGlobalSecondaryIndex))
           globalSecondaryIndexes = (-1)%Z)
      prevGlobalSecondaryIndexes.

Definition getGlobalIndexesUpdates
    (prevGlobalSecondaryIndexes globalSecondaryIndexes : option (list GlobalSecondaryIndex))
  : IndexUpdates :=
  let prev := default [] prevGlobalSecondaryIndexes in
  let cur := default [] globalSecondaryIndexes in
  {| Create := head (toCreate prev cur);
     Delete := head (toDelete prev cur) |}.

(** Ramda's [isEmpty] on the object [indexUpdates]: no own key. *)
Definition isEmpty_indexUpdates (u : IndexUpdates) : bool :=
  match Create u, Delete u with
  | None, None => true
  | _, _ => false
  end.

(** [obj && obj.StreamEnabled] as a condition. *)
Definition streamEnabled (s : option StreamSpecification) : bool :=
  match s with
  | Some spec => truthy_bool (StreamEnabled spec)
  | None => false
  end.

(** [getStreamUpdates]; the result [null] is [None]. *)
Definition getStreamUpdates (prevStream stream : option StreamSpecification)
  : option StreamSpecification :=
  let disabledStream := streamEnabled prevStream && negb (streamEnabled stream) in
  if disabledStream then
    Some {| StreamEnabled := Some false; StreamViewType := None |}
  else
    let enabledStream := negb (streamEnabled prevStream) && streamEnabled stream in
    if enabledStream then stream else None.

(** ** Provider interface (the part of the AWS SDK that is used) *)

(** The value a rejected SDK promise carries. *)
Record AwsError := {
  code : string;
  message : string
}.

(** [data.Table] of describe-table and [res.TableDescription] of create-
    and update-table. *)
Module TableDescription.
Record t := {
  TableArn : string;
  TableName : string;
  AttributeDefinitions : list AttributeDefinition;
  KeySchema : list KeySchemaElement;
  GlobalSecondaryIndexes : option (list GlobalSecondaryIndex);
  StreamSpecification : option StreamSpecification;
  LatestStreamArn : option string;
  Replicas : option (list Replica)
}.
End TableDescription.

Module CreateTableInput.
Record t := {
  TableName : option string;
  AttributeDefinitions : list AttributeDefinition;
  KeySchema : list KeySchemaElement;
  GlobalSecondaryIndexes : option (list GlobalSecondaryIndex);
  LocalSecondaryIndexes : option (list LocalSecondaryIndex);
  BillingMode : string;
  StreamSpecification : option StreamSpecification
}.
End CreateTableInput.

(** The parameter object of [dynamodb.updateTable]; a key that is absent
    or [undefined] is [None]. *)
Module UpdateTableInput.
Record t := {
  TableName : option string;
  AttributeDefinitions : option (list AttributeDefinition);
  BillingMode : option string;
  GlobalSecondaryIndexUpdates : option (list IndexUpdates);
  StreamSpecification : option StreamSpecification;
  ReplicaUpdates : option (list ReplicaUpdate)
}.
End UpdateTableInput.

(** A client [new AWS.DynamoDB({ region, credentials })] is identified by
    its region; the credentials are those of the component. *)
Definition Client := option string.

Record DynamoDB (W : Type) := {
  sdk_describeTable : Client → option string → W → (AwsError + TableDescription.t) * W;
  sdk_createTable : Client → CreateTableInput.t → W → (AwsError + TableDescription.t) * W;
  sdk_updateTable : Client → UpdateTableInput.t → W → (AwsError + TableDescription.t) * W;
  sdk_deleteTable : Client → option string → W → (AwsError + TableDescription.t) * W;
  sdk_waitFor_tableExists : Client → option string → W → (AwsError + unit) * W;
  (** the provider's evolution while the component sleeps *)
  elapse : Z → W → W
}.
Arguments sdk_describeTable {W}.
Arguments sdk_createTable {W}.
Arguments sdk_updateTable {W}.
Arguments sdk_deleteTable {W}.
Arguments sdk_waitFor_tableExists {W}.
Arguments elapse {W}.

(** What the component does to the outside, in order. *)
Inductive Event :=
  | DescribeTableCall (dynamodb : Client) (name : option string)
  | CreateTableCall (dynamodb : Client) (params : CreateTableInput.t)
  | UpdateTableCall (dynamodb : Client) (params : UpdateTableInput.t)
  | DeleteTableCall (dynamodb : Client) (name : option string)
  | WaitForCall (dynamodb : Client) (name : option string)
  | Sleep (ms : Z).

Definition is_provider_call (e : Event) : bool :=
  match e with
  | Sleep _ => false
  | _ => true
  end.

(** Calls that change the table or block on its status: everything but
    describe-table and sleeping. *)
Definition is_mutating_call (e : Event) : bool :=
  match e with
  | Sleep _ | DescribeTableCall _ _ => false
  | _ => true
  end.

(** ** Component state and exceptions *)

(** [this.state] *)
Module State.
Record t := {
  name : option string;
  arn : option string;
  region : option string;
  streamArn : option StreamArn;
  deletionPolicy : option string
}.
(** the object [{}] *)
Definition empty : t :=
  {| name := None; arn := None; region := None; streamArn := None;
     deletionPolicy := None |}.
Definition set_name (n : option string) (s : t) : t :=
  {| name := n; arn := arn s; region := region s; streamArn := streamArn s;
     deletionPolicy := deletionPolicy s |}.
End State.

Inductive Exn :=
  | SdkError (e : AwsError)
  (** [Error("Credentials not found. ...")] *)
  | CredentialsNotFound
  (** [Error("You cannot change the name of your DynamoDB table ...")] *)
  | NameChangeError
  (** [Error("You cannot change the region of a DynamoDB Table. ...")] *)
  | RegionChangeError
  (** [Error("There was a problem getting the arn for your DynamoDB stream. ...")] *)
  | StreamArnError
  (** reading a property of [null] or [undefined] *)
  | TypeError.

(** [error.code] of a caught value. *)
Definition error_code (e : Exn) : option string :=
  match e with
  | SdkError err => Some (code err)
  | _ => None
  end.

Inductive Outcome (A : Type) :=
  | Return (a : A)
  | Throw (e : Exn).
Arguments Return {A}.
Arguments Throw {A}.

Record Machine (W : Type) := {
  world : W;
  trace : list Event;
  state : State.t
}.
Arguments world {W}.
Arguments trace {W}.
Arguments state {W}.

Definition M (W A : Type) : Type := Machine W → Outcome A * Machine W.

Definition ret {W A} (a : A) : M W A := λ m, (Return a, m).

Definition throw {W A} (e : Exn) : M W A := λ m, (Throw e, m).

Definition bind {W A B} (c : M W A) (k : A → M W B) : M W B :=
  λ m, match c m with
       | (Return a, m') => k a m'
       | (Throw e, m') => (Throw e, m')
       end.

(** [try { c } catch (error) { h error }] *)
Definition try_catch {W A} (c : M W A) (h : Exn → M W A) : M W A :=
  λ m, match c m with
       | (Return a, m') => (Return a, m')
       | (Throw e, m') => h e m'
       end.

Notation "'let*' x := c 'in' k" := (bind c (λ x, k))
  (at level 10, x pattern, c at level 100, k at level 200).

Definition get_state {W} : M W State.t := λ m, (Return (state m), m).

Definition put_state {W} (s : State.t) : M W unit :=
  λ m, (Return (), {| world := world m; trace := trace m; state := s |}).

(** One awaited SDK request: the call is recorded, the provider answers. *)
Definition request {W R} (ev : Event) (op : W → (AwsError + R) * W) : M W R :=
  λ m, let '(r, w) := op (world m) in
       let m' := {| world := w; trace := trace m ++ [ev]; state := state m |} in
       match r with
       | inl err => (Throw (SdkError err), m')
       | inr res => (Return res, m')
       end.

(** [await sleep(ms)] *)
Definition sleep {W} (aws : DynamoDB W) (ms : Z) : M W unit :=
  λ m, (Return (),
        {| world := elapse aws ms (world m); trace := trace m ++ [Sleep ms];
           state := state m |}).

(** ** utils.js, asynchronous part *)

(** What [describeTable] returns: the normalized table, [null], or
    [undefined] (the initial value of [res]). *)
Module TableView.
Record t := {
  arn : string;
  name : string;
  attributeDefinitions : list AttributeDefinition;
  keySchema : list KeySchemaElement;
  globalSecondaryIndexes : option (list GlobalSecondaryIndex);
  stream : option StreamSpecification;
  streamArn : option string;
  replicas : option (list Replica)
}.
Definition of_description (d : TableDescription.t) : t :=
  {| arn := TableDescription.TableArn d;
     name := TableDescription.TableName d;
     attributeDefinitions := TableDescription.AttributeDefinitions d;
     keySchema := TableDescription.KeySchema d;
     globalSecondaryIndexes := TableDescription.GlobalSecondaryIndexes d;
     stream := TableDescription.StreamSpecification d;
     streamArn := TableDescription.LatestStreamArn d;
     replicas := TableDescription.Replicas d |}.
End TableView.

Inductive Described :=
  | Undefined
  | Null
  | Table (t : TableView.t).

(** [maxTries] of [getStreamArn] and the argument of its [sleep]. *)
Definition maxTries : nat := 5.
Definition pollInterval : Z := 10000.

Section Utils.
Context {W : Type} (aws : DynamoDB W).

(** [createTable] *)
Definition createTable (dynamodb : Client) (name : option string)
    (attributeDefinitions : list AttributeDefinition)
    (keySchema : list KeySchemaElement)
    (globalSecondaryIndexes : list GlobalSecondaryIndex)
    (localSecondaryIndexes : option (list LocalSecondaryIndex))
    (stream : option StreamSpecification) : M W (string * StreamArn) :=
  let params :=
    {| CreateTableInput.TableName := name;
       CreateTableInput.AttributeDefinitions := attributeDefinitions;
       CreateTableInput.KeySchema := keySchema;
       CreateTableInput.GlobalSecondaryIndexes :=
         if bool_decide (length globalSecondaryIndexes = 0) then None
         else Some globalSecondaryIndexes;
       CreateTableInput.LocalSecondaryIndexes := localSecondaryIndexes;
       CreateTableInput.BillingMode := "PAY_PER_REQUEST";
       CreateTableInput.StreamSpecification := stream |} in
  let* res := request (CreateTableCall dynamodb params)
                      (sdk_createTable aws dynamodb params) in
  ret (TableDescription.TableArn res,
       if truthy (TableDescription.LatestStreamArn res)
       then ArnString (default "" (TableDescription.LatestStreamArn res))
       else ArnFalse).

(** [describeTable].  [res] starts [undefined]; the [try] body assigns
    the table, the [catch] block assigns [null] for the not-found code
    and nothing otherwise, and [finally { return res }] makes [res] the
    result on every path. *)
Definition describeTable (dynamodb : Client) (name : option string) : M W Described :=
  try_catch
    (let* data := request (DescribeTableCall dynamodb name)
                          (sdk_describeTable aws dynamodb name) in
     ret (Table (TableView.of_description data)))
    (λ error,
       if bool_decide (error_code error = Some "ResourceNotFoundException")
       then ret Null
       else ret Undefined).

(** [getStreamArn].  [remaining] is [maxTries - 1 - tries]: the loop
    body runs, and runs again while [tries + 1 < maxTries].
    Destructuring [{ streamArn }] of [null] or [undefined] throws. *)
Fixpoint getStreamArn_loop (remaining : nat) (dynamodb : Client)
    (name : option string) : M W string :=
  let* _ := sleep aws pollInterval in
  let* described := describeTable dynamodb name in
  match described with
  | Table t =>
      if truthy (TableView.streamArn t) then
        ret (default "" (TableView.streamArn t))
      else
        match remaining with
        | S remaining' => getStreamArn_loop remaining' dynamodb name
        | O => throw StreamArnError
        end
  | Null | Undefined => throw TypeError
  end.

Definition getStreamArn (dynamodb : Client) (name : option string) : M W string :=
  getStreamArn_loop (maxTries - 1) dynamodb name.

(** The parameter object that [updateTable] builds. *)
Definition updateTable_params (name : option string)
    (attributeDefinitions : list AttributeDefinition)
    (indexUpdates : IndexUpdates)
    (streamUpdates : option StreamSpecification) : UpdateTableInput.t :=
  {| UpdateTableInput.TableName := name;
     UpdateTableInput.AttributeDefinitions := Some attributeDefinitions;
     UpdateTableInput.BillingMode := Some "PAY_PER_REQUEST";
     UpdateTableInput.GlobalSecondaryIndexUpdates :=
       if negb (isEmpty_indexUpdates indexUpdates) then Some [indexUpdates] else None;
     UpdateTableInput.StreamSpecification := streamUpdates;
     UpdateTableInput.ReplicaUpdates := None |}.

(** The end of [updateTable]: [streamArn] is [false] unless
    [stream.StreamEnabled], and then what the poller returns. *)
Definition streamArn_after_update (dynamodb : Client) (name : option string)
    (stream : option StreamSpecification) : M W StreamArn :=
  match stream with
  | None => throw TypeError
  | Some s =>
      if truthy_bool (StreamEnabled s) then
        let* a := getStreamArn dynamodb name in ret (ArnString a)
      else ret ArnFalse
  end.

(** [updateTable] *)
Definition updateTable (dynamodb : Client)
    (prevGlobalSecondaryIndexes globalSecondaryIndexes : option (list GlobalSecondaryIndex))
    (name : option string)
    (attributeDefinitions : list AttributeDefinition)
    (prevStream stream : option StreamSpecification) : M W (string * StreamArn) :=
  let indexUpdates :=
    getGlobalIndexesUpdates prevGlobalSecondaryIndexes globalSecondaryIndexes in
  let streamUpdates := getStreamUpdates prevStream stream in
  let params := updateTable_params name attributeDefinitions indexUpdates streamUpdates in
  let* res := request (UpdateTableCall dynamodb params)
                      (sdk_updateTable aws dynamodb params) in
  let* streamArn := streamArn_after_update dynamodb name stream in
  ret (TableDescription.TableArn res, streamArn).

(** [waitForActive] *)
Definition waitForActive (dynamodb : Client) (name : option string) : M W unit :=
  request (WaitForCall dynamodb name) (sdk_waitFor_tableExists aws dynamodb name).

(** The parameter object of a replica update. *)
Definition replica_params (name : option string) (updates : list ReplicaUpdate)
  : UpdateTableInput.t :=
  {| UpdateTableInput.TableName := name;
     UpdateTableInput.AttributeDefinitions := None;
     UpdateTableInput.BillingMode := None;
     UpdateTableInput.GlobalSecondaryIndexUpdates := None;
     UpdateTableInput.StreamSpecification := None;
     UpdateTableInput.ReplicaUpdates := Some updates |}.

(** [updateReplicas]; both lists default to [[]]. *)
Definition updateReplicas (dynamodb : Client) (name : option string)
    (prevReplicas replicas : option (list Replica)) : M W unit :=
  let prevRegions := sort (RegionName <$> default [] prevReplicas) in
  let currentRegions := sort (RegionName <$> default [] replicas) in
  if bool_decide (prevRegions = currentRegions) then ret ()
  else
    let addReplicas := ReplicaCreate <$> difference currentRegions prevRegions in
    let deleteReplicas := ReplicaDelete <$> difference prevRegions currentRegions in
    let* _ := waitForActive dynamodb name in
    let params := replica_params name (addReplicas ++ deleteReplicas) in
    let* _ := request (UpdateTableCall dynamodb params)
                      (sdk_updateTable aws dynamodb params) in
    ret ().

(** [deleteReplicas]; [replicas] defaults to [[]]. *)
Definition deleteReplicas (dynamodb : Client) (name : option string)
    (replicas : option (list Replica)) : M W unit :=
  let replicas := default [] replicas in
  if bool_decide (replicas = []) then ret ()
  else
    let params :=
      replica_params name ((λ r, ReplicaDelete (RegionName r)) <$> replicas) in
    let* _ := request (UpdateTableCall dynamodb params)
                      (sdk_updateTable aws dynamodb params) in
    waitForActive dynamodb name.

(** [deleteTable]: [res] starts [false]; a not-found error is caught and
    leaves it [false], any other error is thrown again; the result is
    [!!res]. *)
Definition deleteTable (dynamodb : Client) (name : option string) : M W bool :=
  try_catch
    (let* _ := request (DeleteTableCall dynamodb name)
                       (sdk_deleteTable aws dynamodb name) in
     ret true)
    (λ error,
       if negb (bool_decide (error_code error = Some "ResourceNotFoundException"))
       then throw error
       else ret false).

End Utils.

(** ** serverless.js *)

(** The [inputs] object; a key that is not supplied is [None]. *)
Module Inputs.
Record t := {
  attributeDefinitions : option (list AttributeDefinition);
  keySchema : option (list KeySchemaElement);
  globalSecondaryIndexes : option (list GlobalSecondaryIndex);
  localSecondaryIndexes : option (list LocalSecondaryIndex);
  name : option string;
  region : option string;
  replicas : option (list Replica);
  stream : option StreamSpecification;
  deletionPolicy : option string
}.
(** [inputs = {}] *)
Definition empty : t :=
  {| attributeDefinitions := None; keySchema := None;
     globalSecondaryIndexes := None; localSecondaryIndexes := None;
     name := None; region := None; replicas := None; stream := None;
     deletionPolicy := None |}.
End Inputs.

(** The [config] object, with the keys [arn] and [streamArn] that
    [deploy] adds to it. *)
Module Config.
Record t := {
  attributeDefinitions : list AttributeDefinition;
  keySchema : list KeySchemaElement;
  globalSecondaryIndexes : list GlobalSecondaryIndex;
  localSecondaryIndexes : option (list LocalSecondaryIndex);
  name : option string;
  region : string;
  replicas : list Replica;
  stream : StreamSpecification;
  deletionPolicy : option string;
  arn : option string;
  streamArn : option StreamArn
}.
Definition set_name (n : option string) (c : t) : t :=
  {| attributeDefinitions := attributeDefinitions c; keySchema := keySchema c;
     globalSecondaryIndexes := globalSecondaryIndexes c;
     localSecondaryIndexes := localSecondaryIndexes c;
     name := n; region := region c; replicas := replicas c; stream := stream c;
     deletionPolicy := deletionPolicy c; arn := arn c; streamArn := streamArn c |}.
Definition set_arns (a : option string) (s : option StreamArn) (c : t) : t :=
  {| attributeDefinitions := attributeDefinitions c; keySchema := keySchema c;
     globalSecondaryIndexes := globalSecondaryIndexes c;
     localSecondaryIndexes := localSecondaryIndexes c;
     name := name c; region := region c; replicas := replicas c; stream := stream c;
     deletionPolicy := deletionPolicy c; arn := a; streamArn := s |}.
End Config.

(** [pick(outputsList, _)] with [outputsList = ['name', 'arn', 'region',
    'streamArn']]; the object [{}] has every key missing. *)
Module Outputs.
Record t := {
  name : option string;
  arn : option string;
  region : option string;
  streamArn : option StreamArn
}.
Definition empty : t :=
  {| name := None; arn := None; region := None; streamArn := None |}.
Definition of_config (c : Config.t) : t :=
  {| name := Config.name c; arn := Config.arn c; region := Some (Config.region c);
     streamArn := Config.streamArn c |}.
Definition of_state (s : State.t) : t :=
  {| name := State.name s; arn := State.arn s; region := State.region s;
     streamArn := State.streamArn s |}.
End Outputs.

(** [mergeDeepRight(defaults, inputs)]: a supplied key wins, and the
    object [stream] is merged key by key. *)
Definition mergeDeepRight_defaults (inputs : Inputs.t) : Config.t :=
  {| Config.attributeDefinitions :=
       default [ {| AttributeName := "id"; AttributeType := "S" |} ]
               (Inputs.attributeDefinitions inputs);
     Config.keySchema :=
       default [ {| KeyAttributeName := "id"; KeyType := "HASH" |} ]
               (Inputs.keySchema inputs);
     Config.globalSecondaryIndexes := default [] (Inputs.globalSecondaryIndexes inputs);
     Config.localSecondaryIndexes := Inputs.localSecondaryIndexes inputs;
     Config.name := Inputs.name inputs;
     Config.region := default "us-east-1" (Inputs.region inputs);
     Config.replicas := default [] (Inputs.replicas inputs);
     Config.stream :=
       match Inputs.stream inputs with
       | None => {| StreamEnabled := Some false; StreamViewType := None |}
       | Some s =>
           {| StreamEnabled :=
                match StreamEnabled s with Some b => Some b | None => Some false end;
              StreamViewType := StreamViewType s |}
       end;
     Config.deletionPolicy := Inputs.deletionPolicy inputs;
     Config.arn := None;
     Config.streamArn := None |}.

(** The state that [deploy] records once the table is created or
    updated. *)
Definition recorded_state (config : Config.t) : State.t :=
  {| State.arn := Config.arn config;
     State.streamArn := Config.streamArn config;
     State.name := Config.name config;
     State.region := Some (Config.region config);
     State.deletionPolicy := Config.deletionPolicy config |}.

Section Component.
Context {W : Type} (aws : DynamoDB W).
(** [this.credentials.aws], as its list of keys and values *)
Context (credentials : list (string * string)).

(** Name resolution of [deploy]; [random] stands for
    [Math.random().toString(36).substring(6)]. *)
Definition resolve_name (random : string) (config : Config.t) : M W Config.t :=
  let* st := get_state in
  if negb (truthy (Config.name config)) && negb (truthy (State.name st)) then
    let config := Config.set_name (Some (String.append "dynamodb-table-" random)) config in
    let* _ := put_state (State.set_name (Config.name config) st) in
    ret config
  else if truthy (Config.name config) && negb (truthy (State.name st)) then
    let* _ := put_state (State.set_name (Config.name config) st) in
    ret config
  else if truthy (Config.name config) && truthy (State.name st)
          && negb (bool_decide (Config.name config = State.name st)) then
    throw NameChangeError
  else ret config.

(** The create-or-update branch of [deploy]. *)
Definition create_or_update (dynamodb : Client) (prevTable : Described)
    (config : Config.t) : M W Config.t :=
  match prevTable with
  | Null | Undefined =>
      let* (tableArn, streamArn) :=
        createTable aws dynamodb (Config.name config)
          (Config.attributeDefinitions config) (Config.keySchema config)
          (Config.globalSecondaryIndexes config)
          (Config.localSecondaryIndexes config) (Some (Config.stream config)) in
      ret (Config.set_arns (Some tableArn) (Some streamArn) config)
  | Table prev =>
      let* st := get_state in
      if negb (bool_decide (Some (Config.region config) = State.region st)) then
        throw RegionChangeError
      else
        let config := Config.set_arns (Some (TableView.arn prev)) (Config.streamArn config) config in
        let prevGlobalSecondaryIndexes := TableView.globalSecondaryIndexes prev in
        let prevStream := TableView.stream prev in
        let* (_, streamArn) :=
          updateTable aws dynamodb prevGlobalSecondaryIndexes
            (Some (Config.globalSecondaryIndexes config)) (Config.name config)
            (Config.attributeDefinitions config) prevStream
            (Some (Config.stream config)) in
        ret (Config.set_arns (Config.arn config) (Some streamArn) config)
  end.

(** [deploy] *)
Definition deploy (random : string) (inputs : Inputs.t) : M W Outputs.t :=
  if bool_decide (length (fst <$> credentials) = 0) then throw CredentialsNotFound
  else
    let config := mergeDeepRight_defaults inputs in
    let* config := resolve_name random config in
    let dynamodb : Client := Some (Config.region config) in
    let* prevTable := describeTable aws dynamodb (Config.name config) in
    let* config := create_or_update dynamodb prevTable config in
    let* _ := put_state (recorded_state config) in
    let prevReplicas :=
      match prevTable with
      | Table prev => default [] (TableView.replicas prev)
      | Null | Undefined => []
      end in
    let* _ := updateReplicas aws dynamodb (Config.name config)
                             (Some prevReplicas) (Some (Config.replicas config)) in
    ret (Outputs.of_config config).

(** [remove]; the result [undefined] is [None]. *)
Definition remove : M W (option Outputs.t) :=
  let* st := get_state in
  if negb (truthy (State.deletionPolicy st))
     || negb (bool_decide (State.deletionPolicy st = Some "delete")) then
    ret (Some Outputs.empty)
  else
    let name := State.name st in
    let region := State.region st in
    if negb (truthy name) then ret None
    else
      let dynamodb : Client := region in
      let* table := describeTable aws dynamodb name in
      match table with
      | Null | Undefined => throw TypeError
      | Table t =>
          let* _ := deleteReplicas aws dynamodb name (TableView.replicas t) in
          let* _ := deleteTable aws dynamodb name in
          let* st := get_state in
          let outputs := Outputs.of_state st in
          let* _ := put_state State.empty in
          ret (Some outputs)
      end.

End Component.

(** ** Vocabulary of the design document *)

(** The name-difference set: the indexes of [xs] whose name does not
    appear in [ys], in the order of [xs]. *)
Definition name_difference (xs ys : list GlobalSecondaryIndex) : list GlobalSecondaryIndex :=
  filter (λ x, IndexName x ∉ IndexName <$> ys) xs.

(** The Create and Delete entries that a table update carries. *)
Definition create_entries (p : UpdateTableInput.t) : list GlobalSecondaryIndex :=
  u ← default [] (UpdateTableInput.GlobalSecondaryIndexUpdates p);
  option_list (Create u).

Definition delete_entries (p : UpdateTableInput.t) : list IndexNameOnly :=
  u ← default [] (UpdateTableInput.GlobalSecondaryIndexUpdates p);
  option_list (Delete u).

(** The decision table of the stream reconciler. *)
Inductive StreamDecision :=
  | Disable
  | Enable
  | NoChange.

Definition stream_decision_table (prevEnabled desiredEnabled : bool) : StreamDecision :=
  match prevEnabled, desiredEnabled with
  | true, false => Disable
  | false, true => Enable
  | true, true | false, false => NoChange
  end.

(** What a decision puts in the [StreamSpecification] field of the
    update: nothing for [NoChange]. *)
Definition stream_field (d : StreamDecision) (desired : option StreamSpecification)
  : option StreamSpecification :=
  match d with
  | Disable => Some {| StreamEnabled := Some false; StreamViewType := None |}
  | Enable => desired
  | NoChange => None
  end.

(** The region names of a replica list. *)
Definition regions (l : list Replica) : list string := RegionName <$> l.

(** One round of the poller: sleep, then describe. *)
Definition poll_once {W} (aws : DynamoDB W) (dynamodb : Client) (name : option string)
  : M W Described :=
  let* _ := sleep aws pollInterval in describeTable aws dynamodb name.

(** The machine after [k] rounds, and what round [k] (from 0) observes. *)
Fixpoint after_polls {W} (aws : DynamoDB W) (dynamodb : Client) (name : option string)
    (k : nat) (m : Machine W) : Machine W :=
  match k with
  | O => m
  | S k' => (poll_once aws dynamodb name (after_polls aws dynamodb name k' m)).2
  end.

Definition observed {W} (aws : DynamoDB W) (dynamodb : Client) (name : option string)
    (k : nat) (m : Machine W) : Outcome Described :=
  (poll_once aws dynamodb name (after_polls aws dynamodb name k m)).1.

(** The stream identifier of an observation, when it is not empty. *)
Definition identifier (o : Outcome Described) : option string :=
  match o with
  | Return (Table t) =>
      if truthy (TableView.streamArn t) then TableView.streamArn t else None
  | _ => None
  end.

(** The observation is a table whose stream identifier is still empty. *)
Definition pending (o : Outcome Described) : bool :=
  match o with
  | Return (Table t) => negb (truthy (TableView.streamArn t))
  | _ => false
  end.

(** The events of [n] rounds of the poller. *)
Definition poll_events (dynamodb : Client) (name : option string) (n : nat) : list Event :=
  mjoin (replicate n [Sleep pollInterval; DescribeTableCall dynamodb name]).

(** How a run of the poller ends when it stops at round [n] (from 1):
    the rounds before were pending, and round [n] decides the result. *)
Definition poll_result {W} (aws : DynamoDB W) (bound : nat) (dynamodb : Client)
    (name : option string) (m : Machine W) (r : Outcome string * Machine W)
    (n : nat) : Prop :=
  (1 ≤ n ≤ bound)%nat ∧
  r.2 = after_polls aws dynamodb name n m ∧
  (∀ j, (j < n - 1)%nat → pending (observed aws dynamodb name j m) = true) ∧
  match r.1 with
  | Return a => identifier (observed aws dynamodb name (n - 1) m) = Some a
  | Throw e =>
      (e = StreamArnError ∧ n = bound
       ∧ pending (observed aws dynamodb name (n - 1) m) = true)
      ∨ (e = TypeError
         ∧ pending (observed aws dynamodb name (n - 1) m) = false
         ∧ identifier (observed aws dynamodb name (n - 1) m) = None)
  end.

(** [m'] is reached from [m] by provider calls and sleeps only: the
    component state is the same and the trace is extended. *)
Definition grows {W} (m m' : Machine W) : Prop :=
  state m' = state m ∧ ∃ evs, trace m' = trace m ++ evs.

(** A computation that never writes the component state. *)
Definition only_issues {W A} (c : M W A) : Prop := ∀ m, grows m (c m).2.

(** The events a computation adds to the trace of [m]. *)
Definition issued {W A} (m : Machine W) (r : Outcome A * Machine W) : list Event :=
  drop (length (trace m)) (trace r.2).

(** The calls among [evs] that change the table or wait on it. *)
Definition mutating_calls (evs : list Event) : list Event :=
  List.filter is_mutating_call evs.

(** ** A scripted provider

    The provider state is the list of answers still to give; every
    operation gives the next one, and fails once the script is used up. *)
Definition Script := list (AwsError + TableDescription.t).

Definition next_answer (w : Script) : (AwsError + TableDescription.t) * Script :=
  match w with
  | [] => (inl {| code := "InternalServerError"; message := "end of script" |}, [])
  | r :: w' => (r, w')
  end.

Definition scripted : DynamoDB Script :=
  {| sdk_describeTable := λ _ _, next_answer;
     sdk_createTable := λ _ _, next_answer;
     sdk_updateTable := λ _ _, next_answer;
     sdk_deleteTable := λ _ _, next_answer;
     sdk_waitFor_tableExists :=
       λ _ _ w, let '(r, w') := next_answer w in
                (match r with inl e => inl e | inr _ => inr () end, w');
     elapse := λ _ w, w |}.

Definition not_found : AwsError :=
  {| code := "ResourceNotFoundException"; message := "Requested resource not found" |}.

Definition access_denied : AwsError :=
  {| code := "AccessDeniedException"; message := "not authorized" |}.

(** A table [orders] in [us-east-1], as the provider describes it. *)
Definition orders_table (gsis : option (list GlobalSecondaryIndex))
    (stream : option StreamSpecification) (streamArn : option string)
    (replicas : option (list Replica)) : TableDescription.t :=
  {| TableDescription.TableArn := "arn:aws:dynamodb:us-east-1:1:table/orders";
     TableDescription.TableName := "orders";
     TableDescription.AttributeDefinitions :=
       [ {| AttributeName := "id"; AttributeType := "S" |} ];
     TableDescription.KeySchema := [ {| KeyAttributeName := "id"; KeyType := "HASH" |} ];
     TableDescription.GlobalSecondaryIndexes := gsis;
     TableDescription.StreamSpecification := stream;
     TableDescription.LatestStreamArn := streamArn;
     TableDescription.Replicas := replicas |}.

Definition plain_orders : TableDescription.t := orders_table None None None None.

Definition gsi (n : string) : GlobalSecondaryIndex :=
  {| IndexName := n; IndexKeySchema := []; ProjectionType := Some "ALL";
     IndexStatus := None |}.

Definition start (w : Script) (s : State.t) : Machine Script :=
  {| world := w; trace := []; state := s |}.

(** The state a first deploy of [orders] recorded. *)
Definition orders_state (policy : option string) : State.t :=
  {| State.name := Some "orders";
     State.arn := Some "arn:aws:dynamodb:us-east-1:1:table/orders";
     State.region := Some "us-east-1";
     State.streamArn := Some ArnFalse;
     State.deletionPolicy := policy |}.

(** Inputs that name the table [orders]. *)
Definition orders_inputs (region : option string) (stream : option StreamSpecification)
    (policy : option string) : Inputs.t :=
  {| Inputs.attributeDefinitions := None; Inputs.keySchema := None;
     Inputs.globalSecondaryIndexes := None; Inputs.localSecondaryIndexes := None;
     Inputs.name := Some "orders"; Inputs.region := region;
     Inputs.replicas := None; Inputs.stream := stream;
     Inputs.deletionPolicy := policy |}.

Definition move_to_eu : Inputs.t := orders_inputs (Some "eu-west-1") None None.

Definition stream_on : StreamSpecification :=
  {| StreamEnabled := Some true; StreamViewType := Some "NEW_IMAGE" |}.

Definition stream_off : StreamSpecification :=
  {| StreamEnabled := Some false; StreamViewType := None |}.

Definition orders_stream_arn : string :=
  "arn:aws:dynamodb:us-east-1:1:table/orders/stream/1".

(** [orders] with its stream enabled, and with everything spelled out and
    nothing enabled. *)
Definition streaming_orders : TableDescription.t :=
  orders_table None (Some stream_on) (Some orders_stream_arn) None.

Definition bare_orders : TableDescription.t :=
  orders_table (Some []) (Some stream_off) None (Some []).

Definition some_credentials : list (string * string) :=
  [("accessKeyId", "AKIA"); ("secretAccessKey", "secret")].


(** ** Vocabulary for traces *)

(** Every event that [c] adds to the trace satisfies [P]. *)
Definition emits {W A} (P : Event → Prop) (c : M W A) : Prop :=
  ∀ m, ∃ evs, trace (c m).2 = trace m ++ evs ∧ Forall P evs.

(** The event is a sleep of the poller, or a call through the client
    [dynamodb] that names the table [name]. *)
Definition on_table (dynamodb : Client) (name : option string) (e : Event) : Prop :=
  match e with
  | DescribeTableCall d n | DeleteTableCall d n | WaitForCall d n =>
      d = dynamodb ∧ n = name
  | CreateTableCall d p => d = dynamodb ∧ CreateTableInput.TableName p = name
  | UpdateTableCall d p => d = dynamodb ∧ UpdateTableInput.TableName p = name
  | Sleep ms => ms = pollInterval
  end.

Definition is_create_call (e : Event) : bool :=
  match e with
  | CreateTableCall _ _ => true
  | _ => false
  end.

Definition is_delete_call (e : Event) : bool :=
  match e with
  | DeleteTableCall _ _ => true
  | _ => false
  end.

Definition is_sleep (e : Event) : bool :=
  match e with
  | Sleep _ => true
  | _ => false
  end.

(** What [deploy] may issue on its table, and what [remove] may. *)
Definition deploy_event (dynamodb : Client) (name : option string) (e : Event) : Prop :=
  on_table dynamodb name e ∧ is_delete_call e = false.

Definition remove_event (dynamodb : Client) (name : option string) (e : Event) : Prop :=
  on_table dynamodb name e ∧ is_create_call e = false ∧ is_sleep e = false.

(** The [Delete] entries of [deleteReplicas], one per replica. *)
Definition delete_all (replicas : list Replica) : list ReplicaUpdate :=
  (λ r, ReplicaDelete (RegionName r)) <$> replicas.

(** * Properties *)

(** ** Lists and the index reconciler *)

Lemma findIndex_from_none {A} (p : A → bool) l i :
  (0 ≤ i)%Z → findIndex_from p l i = (-1)%Z ↔ Forall (λ x, p x = false) l.
Proof.
  revert i. induction l as [|x l IH]; intros i Hi; simpl.
  - split; [constructor | done].
  - destruct (p x) eqn:Hp.
    + split; [lia | intros H; inversion H; congruence].
    + rewrite IH by lia. split; [by constructor | by inversion 1].
Qed.

Lemma findIndex_name_none (g : GlobalSecondaryIndex) l :
  findIndex (λ element, String.eqb (IndexName element) (IndexName g)) l = (-1)%Z
  ↔ IndexName g ∉ IndexName <$> l.
Proof.
  unfold findIndex. rewrite findIndex_from_none by lia.
  rewrite list.Forall_forall, list_elem_of_fmap. split.
  - intros H (y & Heq & Hy). specialize (H y Hy).
    rewrite Heq, String.eqb_refl in H. done.
  - intros H y Hy. apply String.eqb_neq. intros Heq. apply H. by exists y.
Qed.

Lemma toCreate_name_difference prev cur : toCreate prev cur = name_difference cur prev.
Proof. apply list_filter_iff. intros g. apply findIndex_name_none. Qed.

Lemma toDelete_name_difference prev cur :
  toDelete prev cur
  = (λ g, {| DeleteIndexName := IndexName g |}) <$> name_difference prev cur.
Proof.
  unfold toDelete. f_equal. apply list_filter_iff. intros g.
  apply findIndex_name_none.
Qed.

Lemma head_fmap {A B} (f : A → B) (l : list A) : head (f <$> l) = f <$> head l.
Proof. by destruct l. Qed.

Lemma isEmpty_indexUpdates_spec prev cur :
  isEmpty_indexUpdates (getGlobalIndexesUpdates prev cur) = true
  ↔ name_difference (default [] cur) (default [] prev) = []
    ∧ name_difference (default [] prev) (default [] cur) = [].
Proof.
  unfold isEmpty_indexUpdates, getGlobalIndexesUpdates. simpl.
  rewrite toCreate_name_difference, toDelete_name_difference.
  destruct (name_difference (default [] cur) (default [] prev)),
    (name_difference (default [] prev) (default [] cur)); simpl;
    split; try done; intros [? ?]; done.
Qed.

(** ** The machine: requests, the observer and the poller *)

Section Facts.
Context {W : Type} (aws : DynamoDB W).

Lemma grows_refl (m : Machine W) : grows m m.
Proof. split; [done | exists []; by rewrite app_nil_r]. Qed.

Lemma grows_trans (m1 m2 m3 : Machine W) :
  grows m1 m2 → grows m2 m3 → grows m1 m3.
Proof.
  intros [Hs1 [e1 He1]] [Hs2 [e2 He2]]. split; [congruence|].
  exists (e1 ++ e2). by rewrite He2, He1, app_assoc.
Qed.

Lemma request_run {R} ev (op : W → (AwsError + R) * W) m :
  request ev op m =
    (match (op (world m)).1 with
     | inl err => Throw (SdkError err)
     | inr res => Return res
     end,
     {| world := (op (world m)).2; trace := trace m ++ [ev]; state := state m |}).
Proof. unfold request. destruct (op (world m)) as [[err|res] w]; done. Qed.

Lemma describeTable_run dynamodb name m :
  describeTable aws dynamodb name m =
    (Return
       match (sdk_describeTable aws dynamodb name (world m)).1 with
       | inr data => Table (TableView.of_description data)
       | inl err =>
           if bool_decide (code err = "ResourceNotFoundException") then Null
           else Undefined
       end,
     {| world := (sdk_describeTable aws dynamodb name (world m)).2;
        trace := trace m ++ [DescribeTableCall dynamodb name];
        state := state m |}).
Proof.
  unfold describeTable, try_catch, bind. rewrite request_run.
  destruct (sdk_describeTable aws dynamodb name (world m)) as [[err|data] w]; simpl.
  2: done.
  repeat case_bool_decide; try done; congruence.
Qed.

Lemma poll_once_run dynamodb name m :
  poll_once aws dynamodb name m =
    describeTable aws dynamodb name
      {| world := elapse aws pollInterval (world m);
         trace := trace m ++ [Sleep pollInterval]; state := state m |}.
Proof. done. Qed.

Lemma poll_once_returns dynamodb name m :
  ∃ d, (poll_once aws dynamodb name m).1 = Return d.
Proof. rewrite poll_once_run, describeTable_run. eauto. Qed.

Lemma poll_events_snoc dynamodb name k :
  poll_events dynamodb name (S k) =
    poll_events dynamodb name k ++ [Sleep pollInterval; DescribeTableCall dynamodb name].
Proof.
  unfold poll_events. induction k as [|k IH]; [done|].
  simpl in *. by rewrite IH.
Qed.

Lemma after_polls_trace dynamodb name k m :
  trace (after_polls aws dynamodb name k m) = trace m ++ poll_events dynamodb name k
  ∧ state (after_polls aws dynamodb name k m) = state m.
Proof.
  induction k as [|k [IHt IHs]]; simpl.
  - by rewrite app_nil_r.
  - rewrite poll_once_run, describeTable_run. simpl. rewrite IHt, IHs. split; [|done].
    rewrite poll_events_snoc, <- !app_assoc. done.
Qed.

Lemma after_polls_shift dynamodb name k m :
  after_polls aws dynamodb name k (after_polls aws dynamodb name 1 m)
  = after_polls aws dynamodb name (S k) m.
Proof. induction k as [|k IH]; [done|]. simpl in *. by rewrite IH. Qed.

Lemma observed_shift dynamodb name k m :
  observed aws dynamodb name k (after_polls aws dynamodb name 1 m)
  = observed aws dynamodb name (S k) m.
Proof. unfold observed. by rewrite after_polls_shift. Qed.

Lemma getStreamArn_loop_unfold remaining dynamodb name m :
  getStreamArn_loop aws remaining dynamodb name m =
    match poll_once aws dynamodb name m with
    | (Return (Table t), m1) =>
        if truthy (TableView.streamArn t) then
          (Return (default "" (TableView.streamArn t)), m1)
        else
          match remaining with
          | S remaining' => getStreamArn_loop aws remaining' dynamodb name m1
          | O => (Throw StreamArnError, m1)
          end
    | (Return _, m1) => (Throw TypeError, m1)
    | (Throw e, m1) => (Throw e, m1)
    end.
Proof.
  destruct remaining; simpl; unfold poll_once, bind, sleep;
    destruct (describeTable _ _ _ _) as [[[| |t]|e] m1]; try done;
    destruct (truthy _); done.
Qed.

Local Ltac stop_after_one Hobs Hm1 :=
  exists 1; unfold poll_result; simpl fst; simpl snd;
  change (1 - 1) with 0; rewrite Hobs;
  split; [lia|]; split; [by rewrite Hm1|]; split; [intros ? ?; lia|]; simpl.

Lemma getStreamArn_loop_result remaining dynamodb name m :
  ∃ n, poll_result aws (S remaining) dynamodb name m
         (getStreamArn_loop aws remaining dynamodb name m) n.
Proof.
  revert m. induction remaining as [|remaining IH]; intros m;
    rewrite getStreamArn_loop_unfold;
    destruct (poll_once aws dynamodb name m) as [o m1] eqn:Hpoll;
    assert (Hobs : observed aws dynamodb name 0 m = o)
      by (unfold observed; simpl; by rewrite Hpoll);
    assert (Hm1 : after_polls aws dynamodb name 1 m = m1)
      by (simpl; by rewrite Hpoll);
    destruct (poll_once_returns dynamodb name m) as [d Hd];
    rewrite Hpoll in Hd; simpl in Hd;
    rewrite Hd in Hobs, Hpoll |- *; clear Hd.
  - destruct d as [| |t]; simpl.
    + stop_after_one Hobs Hm1. by right.
    + stop_after_one Hobs Hm1. by right.
    + destruct (truthy (TableView.streamArn t)) eqn:Ht; simpl.
      * stop_after_one Hobs Hm1. rewrite Ht. by destruct (TableView.streamArn t).
      * stop_after_one Hobs Hm1. left. by rewrite Ht.
  - destruct d as [| |t]; simpl.
    + stop_after_one Hobs Hm1. by right.
    + stop_after_one Hobs Hm1. by right.
    + destruct (truthy (TableView.streamArn t)) eqn:Ht; simpl.
      * stop_after_one Hobs Hm1. rewrite Ht. by destruct (TableView.streamArn t).
      * destruct (IH m1) as (n & Hn & Hafter & Hpend & Hres).
        exists (S n). unfold poll_result.
        subst m1.
        rewrite after_polls_shift in Hafter.
        replace (S n - 1) with (S (n - 1)) by lia.
        split; [lia|]. split; [done|]. split.
        -- intros [|j] Hj.
           ++ rewrite Hobs. simpl. by rewrite Ht.
           ++ rewrite <- observed_shift. apply Hpend. lia.
        -- rewrite <- observed_shift.
           destruct (getStreamArn_loop _ _ _ _ _).1; [done|].
           destruct Hres as [(? & ? & ?)|(? & ? & ?)]; [left|right];
             repeat split; try done; lia.
Qed.

Lemma only_issues_ret {A} (a : A) : only_issues (ret (W:=W) a).
Proof. intros m. apply grows_refl. Qed.

Lemma only_issues_throw {A} e : only_issues (throw (W:=W) (A:=A) e).
Proof. intros m. apply grows_refl. Qed.

Lemma only_issues_bind {A B} (c : M W A) (k : A → M W B) :
  only_issues c → (∀ a, only_issues (k a)) → only_issues (bind c k).
Proof.
  intros Hc Hk m. unfold bind. specialize (Hc m).
  destruct (c m) as [[a|e] m1]; simpl in *; [|done].
  eapply grows_trans; [exact Hc | apply Hk].
Qed.

Lemma only_issues_try_catch {A} (c : M W A) (h : Exn → M W A) :
  only_issues c → (∀ e, only_issues (h e)) → only_issues (try_catch c h).
Proof.
  intros Hc Hh m. unfold try_catch. specialize (Hc m).
  destruct (c m) as [[a|e] m1]; simpl in *; [done|].
  eapply grows_trans; [exact Hc | apply Hh].
Qed.

Lemma only_issues_request {R} ev (op : W → (AwsError + R) * W) :
  only_issues (request ev op).
Proof. intros m. rewrite request_run. split; simpl; eauto. Qed.

Lemma only_issues_sleep ms : only_issues (sleep aws ms).
Proof. intros m. split; simpl; eauto. Qed.

Lemma only_issues_get_state : only_issues (get_state (W:=W)).
Proof. intros m. apply grows_refl. Qed.

Local Ltac issues :=
  repeat first
    [ apply only_issues_ret | apply only_issues_throw | apply only_issues_request
    | apply only_issues_sleep | apply only_issues_get_state
    | apply only_issues_bind; [|intros ?]
    | apply only_issues_try_catch; [|intros ?]
    | progress cbv zeta
    | case_match ].

Lemma only_issues_describeTable dynamodb name :
  only_issues (describeTable aws dynamodb name).
Proof. unfold describeTable. issues. Qed.

Lemma only_issues_getStreamArn_loop remaining dynamodb name :
  only_issues (getStreamArn_loop aws remaining dynamodb name).
Proof.
  induction remaining; simpl; issues; auto using only_issues_describeTable.
Qed.

Lemma only_issues_getStreamArn dynamodb name :
  only_issues (getStreamArn aws dynamodb name).
Proof. apply only_issues_getStreamArn_loop. Qed.

Lemma only_issues_createTable dynamodb name attrs keys gsis lsis stream :
  only_issues (createTable aws dynamodb name attrs keys gsis lsis stream).
Proof. unfold createTable. issues. Qed.

Lemma only_issues_streamArn_after_update dynamodb name stream :
  only_issues (streamArn_after_update aws dynamodb name stream).
Proof. unfold streamArn_after_update. issues; apply only_issues_getStreamArn. Qed.

Lemma only_issues_updateTable dynamodb prev cur name attrs prevStream stream :
  only_issues (updateTable aws dynamodb prev cur name attrs prevStream stream).
Proof. unfold updateTable. issues; apply only_issues_streamArn_after_update. Qed.

Lemma only_issues_waitForActive dynamodb name :
  only_issues (waitForActive aws dynamodb name).
Proof. unfold waitForActive. issues. Qed.

Lemma only_issues_updateReplicas dynamodb name prev cur :
  only_issues (updateReplicas aws dynamodb name prev cur).
Proof. unfold updateReplicas. issues; apply only_issues_waitForActive. Qed.

Lemma only_issues_deleteReplicas dynamodb name replicas :
  only_issues (deleteReplicas aws dynamodb name replicas).
Proof. unfold deleteReplicas. issues; apply only_issues_waitForActive. Qed.

Lemma only_issues_deleteTable dynamodb name :
  only_issues (deleteTable aws dynamodb name).
Proof. unfold deleteTable. issues. Qed.

(** The first thing [updateTable] does is the update-table call with the
    parameters it computed. *)
Lemma updateTable_first_call dynamodb prev cur name attrs prevStream stream m :
  ∃ rest,
    trace (updateTable aws dynamodb prev cur name attrs prevStream stream m).2
    = trace m
      ++ UpdateTableCall dynamodb
           (updateTable_params name attrs (getGlobalIndexesUpdates prev cur)
              (getStreamUpdates prevStream stream))
         :: rest.
Proof.
  unfold updateTable. cbv zeta. unfold bind at 1. rewrite request_run.
  destruct (sdk_updateTable _ _ _ _).1 as [err|res]; simpl; [by exists []|].
  match goal with |- context [bind ?c ?k ?m1] =>
    destruct (only_issues_bind c k) with (m := m1) as [_ [evs Hevs]]
  end.
  - apply only_issues_streamArn_after_update.
  - intros ?. issues.
  - rewrite Hevs. simpl. rewrite <- app_assoc. by exists evs.
Qed.

End Facts.

(** ** The index reconciler *)

(** C1.  The payload of the index reconciler has at most one Create and
    at most one Delete entry: the first element, in list order, of the
    desired indexes whose name is not among the previous ones, and the
    name alone of the first previous index whose name is not among the
    desired ones.  The update-table call that [updateTable] issues carries
    exactly this payload, and no index-update field at all when both
    difference sets are empty. *)
Theorem index_update_payload {W} (aws : DynamoDB W) dynamodb prev cur name attrs
    prevStream stream (m : Machine W) :
  let u := getGlobalIndexesUpdates prev cur in
  let created := name_difference (default [] cur) (default [] prev) in
  let deleted := name_difference (default [] prev) (default [] cur) in
  Create u = head created
  ∧ Delete u = (λ g, {| DeleteIndexName := IndexName g |}) <$> head deleted
  ∧ ∃ params rest,
      trace (updateTable aws dynamodb prev cur name attrs prevStream stream m).2
        = trace m ++ UpdateTableCall dynamodb params :: rest
      ∧ UpdateTableInput.GlobalSecondaryIndexUpdates params
        = match created, deleted with
          | [], [] => None
          | _, _ => Some [u]
          end
      ∧ create_entries params = option_list (head created)
      ∧ delete_entries params
        = option_list ((λ g, {| DeleteIndexName := IndexName g |}) <$> head deleted)
      ∧ (length (create_entries params) ≤ 1)%nat
      ∧ (length (delete_entries params) ≤ 1)%nat.
Proof.
  cbv zeta.
  destruct (updateTable_first_call aws dynamodb prev cur name attrs prevStream
              stream m) as [rest Hrest].
  unfold getGlobalIndexesUpdates in *. cbv zeta in *.
  rewrite toCreate_name_difference, toDelete_name_difference, head_fmap in *.
  split; [done|]. split; [done|].
  eexists _, rest. split; [exact Hrest|].
  unfold create_entries, delete_entries, isEmpty_indexUpdates. simpl.
  destruct (name_difference (default [] cur) (default [] prev)),
    (name_difference (default [] prev) (default [] cur)); simpl;
    repeat split; try done; lia.
Qed.

(** Scenario B: previous indexes [a, b], desired indexes [b, c]. *)
Example index_update_scenario_b :
  getGlobalIndexesUpdates (Some [gsi "a"; gsi "b"]) (Some [gsi "b"; gsi "c"])
  = {| Create := Some (gsi "c"); Delete := Some {| DeleteIndexName := "a" |} |}.
Proof. reflexivity. Qed.

(** Two indexes to create: only the first is submitted. *)
Example index_update_first_only :
  getGlobalIndexesUpdates (Some [gsi "a"]) (Some [gsi "c"; gsi "a"; gsi "d"])
  = {| Create := Some (gsi "c"); Delete := None |}.
Proof. reflexivity. Qed.

(** ** The stream reconciler *)

(** C2.  For the four combinations of (previous enabled, desired enabled)
    the stream reconciler decides as the table says: Disable when the
    previous stream was enabled and the desired one is not (absent, or
    without [StreamEnabled] true), Enable with the desired specification
    when the previous one was disabled or absent and the desired one is
    enabled, NoChange otherwise; the update-table call carries the
    decision as its [StreamSpecification] field, and no such field for
    NoChange. *)
Theorem stream_decision_matches_table {W} (aws : DynamoDB W) dynamodb prev cur name
    attrs prevStream stream (m : Machine W) :
  let decision :=
    stream_decision_table (streamEnabled prevStream) (streamEnabled stream) in
  let disable := Some {| StreamEnabled := Some false; StreamViewType := None |} in
  getStreamUpdates prevStream stream = stream_field decision stream
  ∧ (decision = Enable → is_Some stream)
  ∧ (streamEnabled prevStream = true →
     getStreamUpdates prevStream None = disable
     ∧ ∀ viewType,
         getStreamUpdates prevStream
           (Some {| StreamEnabled := None; StreamViewType := viewType |})
         = disable)
  ∧ ∃ params rest,
      trace (updateTable aws dynamodb prev cur name attrs prevStream stream m).2
        = trace m ++ UpdateTableCall dynamodb params :: rest
      ∧ UpdateTableInput.StreamSpecification params = stream_field decision stream
      ∧ (decision = NoChange → UpdateTableInput.StreamSpecification params = None).
Proof.
  intros decision disable.
  assert (Hdec : getStreamUpdates prevStream stream = stream_field decision stream).
  { unfold decision, getStreamUpdates.
    destruct (streamEnabled prevStream), (streamEnabled stream); done. }
  split; [done|]. split.
  { unfold decision. destruct stream; [eauto|].
    destruct (streamEnabled prevStream); done. }
  split.
  { intros Hprev. unfold getStreamUpdates. rewrite Hprev. done. }
  destruct (updateTable_first_call aws dynamodb prev cur name attrs prevStream
              stream m) as [rest Hrest].
  eexists _, rest. split; [exact Hrest|]. simpl. split; [done|].
  intros Hno. by rewrite Hdec, Hno.
Qed.

(** The four rows of the table on concrete specifications. *)
Example stream_decision_rows :
  getStreamUpdates (Some stream_on) (Some stream_off) = Some stream_off
  ∧ getStreamUpdates None (Some stream_on) = Some stream_on
  ∧ getStreamUpdates (Some stream_off) (Some stream_on) = Some stream_on
  ∧ getStreamUpdates (Some stream_on) (Some stream_on) = None
  ∧ getStreamUpdates (Some stream_off) (Some stream_off) = None.
Proof. repeat split. Qed.

(** ** The replica reconciler *)

Lemma sort_eq_iff (l1 l2 : list string) : sort l1 = sort l2 ↔ l1 ≡ₚ l2.
Proof.
  unfold sort. split; intros H.
  - rewrite <- (merge_sort_Permutation String.le l1), H.
    apply merge_sort_Permutation.
  - apply (Sorted_unique String.le); try apply Sorted_merge_sort; try apply _.
    by rewrite !merge_sort_Permutation.
Qed.

Section Replicas.
Context {W : Type} (aws : DynamoDB W).

Lemma updateReplicas_noop_iff dynamodb name prev cur (m : Machine W) :
  updateReplicas aws dynamodb name (Some prev) (Some cur) m = (Return (), m)
  ↔ regions prev ≡ₚ regions cur.
Proof.
  rewrite <- sort_eq_iff. unfold updateReplicas, regions. simpl.
  case_bool_decide as Heq; [done|].
  split; [|done]. intros Hrun. exfalso.
  apply (f_equal (λ r, length (trace r.2))) in Hrun. revert Hrun.
  unfold bind at 1. unfold waitForActive. rewrite request_run.
  destruct (sdk_waitFor_tableExists _ _ _ _).1; simpl.
  - rewrite length_app. simpl. lia.
  - match goal with |- context [bind ?c ?k ?m1] =>
      destruct (only_issues_bind c k) with (m := m1) as [_ [evs Hevs]]
    end.
    + apply only_issues_request.
    + intros ?. apply only_issues_ret.
    + rewrite Hevs. simpl. rewrite !length_app. simpl. lia.
Qed.

Lemma updateReplicas_first_call dynamodb name prev cur (m : Machine W) :
  updateReplicas aws dynamodb name (Some prev) (Some cur) m ≠ (Return (), m) →
  ∃ rest,
    trace (updateReplicas aws dynamodb name (Some prev) (Some cur) m).2
    = trace m ++ WaitForCall dynamodb name :: rest.
Proof.
  unfold updateReplicas. simpl. case_bool_decide as Heq; [done|]. intros _.
  unfold bind at 1. unfold waitForActive. rewrite request_run.
  destruct (sdk_waitFor_tableExists _ _ _ _).1; simpl; [by exists []|].
  match goal with |- context [bind ?c ?k ?m1] =>
    destruct (only_issues_bind c k) with (m := m1) as [_ [evs Hevs]]
  end.
  - apply only_issues_request.
  - intros ?. apply only_issues_ret.
  - rewrite Hevs. simpl. rewrite <- app_assoc. by exists evs.
Qed.

End Replicas.

(** C3, as the code has it.  The replica reconciler compares the sorted
    lists of region names, that is the two collections with their
    multiplicities: it returns without any provider call exactly when one
    list of region names is a reordering of the other.  Reordering either
    input never changes whether the no-op is detected.  For lists without
    duplicates this is equality as sets.  When no no-op is detected, the
    first call issued is the wait for the active status. *)
Theorem replica_noop_up_to_reordering {W} (aws : DynamoDB W) dynamodb name
    (prev cur prev' cur' : list Replica) (m : Machine W) :
  prev ≡ₚ prev' →
  cur ≡ₚ cur' →
  let run p c := updateReplicas aws dynamodb name (Some p) (Some c) m in
  (run prev cur = (Return (), m) ↔ regions prev ≡ₚ regions cur)
  ∧ (run prev cur = (Return (), m) ↔ run prev' cur' = (Return (), m))
  ∧ (NoDup (regions prev) → NoDup (regions cur) →
     (∀ r, r ∈ regions prev ↔ r ∈ regions cur) →
     run prev cur = (Return (), m))
  ∧ (run prev cur ≠ (Return (), m) →
     ∃ rest, trace (run prev cur).2 = trace m ++ WaitForCall dynamodb name :: rest).
Proof.
  intros Hprev Hcur run. unfold run.
  split; [apply updateReplicas_noop_iff|].
  split.
  { rewrite !updateReplicas_noop_iff. unfold regions.
    by rewrite Hprev, Hcur. }
  split; [|apply updateReplicas_first_call].
  intros Hnd1 Hnd2 Hset. apply updateReplicas_noop_iff.
  by apply NoDup_Permutation.
Qed.

(** Two reorderings of the same replicas are not told apart. *)
Lemma replica_noop_up_to_reordering_witness :
  let a := {| RegionName := "us-east-1" |} in
  let b := {| RegionName := "eu-west-1" |} in
  updateReplicas scripted (Some "us-east-1") (Some "orders")
    (Some [a; b]) (Some [b; a]) (start [] State.empty)
  = (Return (), start [] State.empty)
  ↔ regions [a; b] ≡ₚ regions [b; a].
Proof.
  exact (proj1
           (replica_noop_up_to_reordering scripted (Some "us-east-1") (Some "orders")
              [ {| RegionName := "us-east-1" |}; {| RegionName := "eu-west-1" |} ]
              [ {| RegionName := "eu-west-1" |}; {| RegionName := "us-east-1" |} ]
              [ {| RegionName := "eu-west-1" |}; {| RegionName := "us-east-1" |} ]
              [ {| RegionName := "us-east-1" |}; {| RegionName := "eu-west-1" |} ]
              (start [] State.empty)
              (perm_swap _ _ _) (perm_swap _ _ _))).
Defined.

(** C3 as stated fails on a desired list that names a region twice: the
    two collections are equal as sets, and the reconciler still waits for
    the table and submits a replica update (an empty one). *)
Lemma replica_sets_equal_but_calls_issued :
  let prev := [ {| RegionName := "us-east-1" |} ] in
  let cur := [ {| RegionName := "us-east-1" |}; {| RegionName := "us-east-1" |} ] in
  (∀ r, r ∈ regions prev ↔ r ∈ regions cur)
  ∧ trace (updateReplicas scripted (Some "us-east-1") (Some "orders")
             (Some prev) (Some cur)
             (start [inr plain_orders; inr plain_orders] State.empty)).2
    = [ WaitForCall (Some "us-east-1") (Some "orders");
        UpdateTableCall (Some "us-east-1") (replica_params (Some "orders") []) ].
Proof.
  split; [|reflexivity].
  intros r. unfold regions. simpl. rewrite !elem_of_cons. tauto.
Qed.

(** ** The stream-identifier poller *)

Lemma pending_identifier o : pending o = true → identifier o = None.
Proof.
  destruct o as [[| |t]|e]; simpl; try done.
  by destruct (truthy (TableView.streamArn t)).
Qed.

Lemma identifier_truthy o a :
  identifier o = Some a → pending o = false ∧ truthy (Some a) = true.
Proof.
  destruct o as [[| |t]|e]; simpl; try done.
  destruct (truthy (TableView.streamArn t)) eqn:Ht; [|done].
  intros Heq. by rewrite Heq in Ht.
Qed.

(** C9.  The poller makes at most [maxTries] = 5 rounds, each a sleep of
    10000 ms followed by one describe call, and nothing else.  It stops at
    the first round whose observation is not a table with an empty stream
    identifier: with the identifier, which is not empty, when there is
    one.  When all 5 rounds observe an empty identifier it throws the
    stream-identifier error; it never returns without an identifier. *)
Theorem stream_arn_poller_bounded {W} (aws : DynamoDB W) dynamodb name
    (m : Machine W) :
  let r := getStreamArn aws dynamodb name m in
  maxTries = 5%nat
  ∧ pollInterval = 10000%Z
  ∧ (∃ n, poll_result aws maxTries dynamodb name m r n
          ∧ trace r.2 = trace m ++ poll_events dynamodb name n
          ∧ state r.2 = state m)
  ∧ (∀ a, r.1 = Return a → truthy (Some a) = true)
  ∧ (∀ k a, (k < maxTries)%nat →
       (∀ j, (j < k)%nat → pending (observed aws dynamodb name j m) = true) →
       identifier (observed aws dynamodb name k m) = Some a →
       r = (Return a, after_polls aws dynamodb name (S k) m))
  ∧ ((∀ j, (j < maxTries)%nat → pending (observed aws dynamodb name j m) = true) →
     r = (Throw StreamArnError, after_polls aws dynamodb name maxTries m)).
Proof.
  intros r.
  destruct (getStreamArn_loop_result aws (maxTries - 1) dynamodb name m)
    as (n & Hres).
  change (getStreamArn_loop aws (maxTries - 1) dynamodb name m) with r in Hres.
  change (S (maxTries - 1)) with maxTries in Hres.
  pose proof Hres as (Hn & Hafter & Hpend & Hout).
  split; [done|]. split; [done|]. split.
  { exists n. split; [done|]. rewrite Hafter. apply after_polls_trace. }
  split.
  { intros a Ha. rewrite Ha in Hout. by apply identifier_truthy in Hout as [_ ?]. }
  split.
  - intros k a Hk Hbefore Hid.
    assert (n = S k) as ->.
    { destruct (decide (n - 1 < k)%nat) as [Hlt|Hge].
      - specialize (Hbefore _ Hlt).
        destruct r.1 as [a'|e].
        + apply identifier_truthy in Hout. destruct Hout. congruence.
        + destruct Hout as [(_ & Hb & _)|(_ & Hp & _)]; [lia|congruence].
      - destruct (decide (k < n - 1)%nat) as [Hlt|Hge']; [|lia].
        specialize (Hpend _ Hlt). apply identifier_truthy in Hid.
        destruct Hid. congruence. }
    replace (S k - 1)%nat with k in Hout by lia.
    destruct r as [[a'|e] m']; simpl in *.
    + rewrite Hid in Hout. by simplify_eq.
    + pose proof (identifier_truthy _ _ Hid) as [Hp _].
      destruct Hout as [(_ & _ & Hq)|(_ & _ & Hq)]; congruence.
  - intros Hall.
    assert (Hlast : pending (observed aws dynamodb name (n - 1) m) = true)
      by (apply Hall; lia).
    destruct r as [[a'|e] m']; simpl in *.
    + apply identifier_truthy in Hout. destruct Hout. congruence.
    + destruct Hout as [(-> & -> & _)|(_ & Hq & _)]; [by subst|congruence].
Qed.

(** A stream whose identifier appears at the third round. *)
Example poller_third_round :
  let with_arn :=
    orders_table None None (Some "arn:aws:dynamodb:us-east-1:1:table/orders/stream/1")
      None in
  let r := getStreamArn scripted (Some "us-east-1") (Some "orders")
             (start [inr plain_orders; inr plain_orders; inr with_arn] State.empty) in
  r.1 = Return "arn:aws:dynamodb:us-east-1:1:table/orders/stream/1"
  ∧ trace r.2 = poll_events (Some "us-east-1") (Some "orders") 3.
Proof. split; reflexivity. Qed.

(** ** The table observer *)

(** [describeTable] returns on every path: no error of the provider
    reaches its caller. *)
Lemma describeTable_never_throws {W} (aws : DynamoDB W) dynamodb name (m : Machine W) :
  ∃ d, (describeTable aws dynamodb name m).1 = Return d.
Proof. rewrite describeTable_run. eauto. Qed.

(** A not-found error is mapped to [null]. *)
Lemma describeTable_not_found {W} (aws : DynamoDB W) dynamodb name (m : Machine W) err :
  (sdk_describeTable aws dynamodb name (world m)).1 = inl err →
  code err = "ResourceNotFoundException" →
  (describeTable aws dynamodb name m).1 = Return Null.
Proof.
  intros Herr Hcode. rewrite describeTable_run. simpl. rewrite Herr.
  by rewrite bool_decide_eq_true_2.
Qed.

(** C5, where the code departs from it.  When the describe call is
    rejected with an error whose code is not the not-found code, the
    observer throws nothing: it returns [undefined], and the error is
    lost.  (The design says that every such error reaches the caller
    unchanged; [deleteTable] does throw it again.) *)
Theorem describeTable_swallows_other_errors {W} (aws : DynamoDB W) dynamodb name
    (m : Machine W) err :
  (sdk_describeTable aws dynamodb name (world m)).1 = inl err →
  code err ≠ "ResourceNotFoundException" →
  describeTable aws dynamodb name m
  = (Return Undefined,
     {| world := (sdk_describeTable aws dynamodb name (world m)).2;
        trace := trace m ++ [DescribeTableCall dynamodb name];
        state := state m |})
  ∧ ∀ e, (describeTable aws dynamodb name m).1 ≠ Throw e.
Proof.
  intros Herr Hcode. rewrite describeTable_run, Herr.
  rewrite bool_decide_eq_false_2 by done. split; [done|]. intros e. discriminate.
Qed.

(** An access-denied answer of the provider. *)
Lemma describeTable_swallows_access_denied :
  describeTable scripted (Some "us-east-1") (Some "orders")
    (start [inl access_denied] State.empty)
  = (Return Undefined,
     {| world := [];
        trace := [DescribeTableCall (Some "us-east-1") (Some "orders")];
        state := State.empty |}).
Proof.
  refine (proj1
            (describeTable_swallows_other_errors scripted (Some "us-east-1")
               (Some "orders") (start [inl access_denied] State.empty)
               access_denied _ _)).
  - reflexivity.
  - discriminate.
Defined.

(** ** Removal *)

(** C8.  When the recorded deletion policy is not exactly ["delete"],
    [remove] returns the empty object and leaves the whole machine as it
    was: no provider call, no sleep, same component state.  When the
    policy is ["delete"] and no name is recorded, it returns [undefined],
    again with the machine untouched. *)
Theorem removal_gated_by_policy {W} (aws : DynamoDB W) (m : Machine W) :
  (State.deletionPolicy (state m) ≠ Some "delete" →
   remove aws m = (Return (Some Outputs.empty), m))
  ∧ (State.deletionPolicy (state m) = Some "delete" →
     truthy (State.name (state m)) = false →
     remove aws m = (Return None, m)).
Proof.
  unfold remove, bind, get_state. split.
  - intros Hpolicy. rewrite (bool_decide_eq_false_2 _ Hpolicy).
    by rewrite orb_true_r.
  - intros Hpolicy Hname. rewrite Hpolicy, Hname. done.
Qed.

(** A retained table, and a state that has lost its name. *)
Example removal_gated_examples :
  remove scripted (start [] (orders_state (Some "retain")))
  = (Return (Some Outputs.empty), start [] (orders_state (Some "retain")))
  ∧ remove scripted (start [] (orders_state None))
    = (Return (Some Outputs.empty), start [] (orders_state None))
  ∧ remove scripted (start [] (State.set_name None (orders_state (Some "delete"))))
    = (Return None, start [] (State.set_name None (orders_state (Some "delete")))).
Proof. repeat split. Qed.

(** [deleteTable] takes a not-found answer for success: it returns
    [false] and throws nothing. *)
Lemma deleteTable_tolerates_absent {W} (aws : DynamoDB W) dynamodb name
    (m : Machine W) err :
  (sdk_deleteTable aws dynamodb name (world m)).1 = inl err →
  code err = "ResourceNotFoundException" →
  (deleteTable aws dynamodb name m).1 = Return false.
Proof.
  intros Herr Hcode. unfold deleteTable, try_catch, bind. rewrite request_run.
  rewrite Herr. simpl. rewrite Hcode. done.
Qed.

(** C10.  With policy ["delete"] and a recorded name, [remove] describes
    the table and reads [replicas] of the result before anything else.
    When the observer does not return a table (the table is absent, so
    the result is [null]; or the describe call failed otherwise, so it is
    [undefined]) this read throws a TypeError: the only event is the
    describe call, delete-table is never called and the component state is
    kept.  When the table exists the run goes on with the replicas of the
    description.  [deleteTable] itself would have taken the absent table
    for success. *)
Theorem removal_reads_replicas_of_observed_table {W} (aws : DynamoDB W)
    (m : Machine W) :
  State.deletionPolicy (state m) = Some "delete" →
  truthy (State.name (state m)) = true →
  let dynamodb : Client := State.region (state m) in
  let name := State.name (state m) in
  let described :=
    {| world := (sdk_describeTable aws dynamodb name (world m)).2;
       trace := trace m ++ [DescribeTableCall dynamodb name];
       state := state m |} in
  (∀ err, (sdk_describeTable aws dynamodb name (world m)).1 = inl err →
     remove aws m = (Throw TypeError, described))
  ∧ (∀ data, (sdk_describeTable aws dynamodb name (world m)).1 = inr data →
       remove aws m
       = (let* _ := deleteReplicas aws dynamodb name (TableDescription.Replicas data) in
          let* _ := deleteTable aws dynamodb name in
          let* st := get_state in
          let* _ := put_state State.empty in
          ret (Some (Outputs.of_state st))) described)
  ∧ (∀ m' err, (sdk_deleteTable aws dynamodb name (world m')).1 = inl err →
       code err = "ResourceNotFoundException" →
       (deleteTable aws dynamodb name m').1 = Return false).
Proof.
  intros Hpolicy Hname dynamodb name described.
  subst dynamodb name described.
  split; [|split].
  - intros err Herr. unfold remove. unfold bind at 1. unfold get_state.
    rewrite Hpolicy, Hname. simpl.
    unfold bind at 1. rewrite describeTable_run, Herr.
    by case_bool_decide.
  - intros data Hdata. unfold remove. unfold bind at 1. unfold get_state.
    rewrite Hpolicy, Hname. simpl.
    unfold bind at 1. rewrite describeTable_run, Hdata.
    done.
  - intros m' err. apply deleteTable_tolerates_absent.
Qed.

(** Removing a table that is already gone. *)
Lemma removal_reads_replicas_of_observed_table_witness :
  remove scripted (start [inl not_found] (orders_state (Some "delete")))
  = (Throw TypeError,
     {| world := [];
        trace := [DescribeTableCall (Some "us-east-1") (Some "orders")];
        state := orders_state (Some "delete") |}).
Proof.
  exact (proj1
           (removal_reads_replicas_of_observed_table scripted
              (start [inl not_found] (orders_state (Some "delete")))
              eq_refl eq_refl)
           not_found eq_refl).
Defined.

(** ** Deployment *)

Lemma issued_app {W A} (m : Machine W) (r : Outcome A * Machine W) evs :
  trace r.2 = trace m ++ evs → issued m r = evs.
Proof. intros H. unfold issued. rewrite H. apply drop_app_length. Qed.

Lemma mutating_calls_poll_events dynamodb name n :
  mutating_calls (poll_events dynamodb name n) = [].
Proof. induction n as [|n IH]; [done|]. exact IH. Qed.

Lemma Config_set_name_id config : Config.set_name (Config.name config) config = config.
Proof. by destruct config. Qed.

Lemma Machine_eta {W} (m : Machine W) :
  {| world := world m; trace := trace m; state := state m |} = m.
Proof. by destruct m. Qed.

Lemma State_set_name_id s : State.set_name (State.name s) s = s.
Proof. by destruct s. Qed.

Section Deploy.
Context {W : Type} (aws : DynamoDB W).

(** What name resolution does: it throws the name-change error and
    touches nothing; or it adopts a name, which it writes to the component
    state at once; or it leaves configuration and machine as they are. *)
Lemma resolve_name_cases random config (m : Machine W) :
  (resolve_name random config m = (Throw NameChangeError, m)
   ∧ truthy (Config.name config) = true
   ∧ truthy (State.name (state m)) = true
   ∧ Config.name config ≠ State.name (state m))
  ∨ (∃ n, resolve_name random config m
          = (Return (Config.set_name n config),
             {| world := world m; trace := trace m;
                state := State.set_name n (state m) |})
          ∧ truthy (State.name (state m)) = false
          ∧ truthy n = true)
  ∨ (resolve_name random config m = (Return config, m)
     ∧ truthy (State.name (state m)) = true
     ∧ (truthy (Config.name config) = true →
        Config.name config = State.name (state m))).
Proof.
  unfold resolve_name, bind, get_state, put_state, ret, throw.
  destruct (truthy (Config.name config)) eqn:Hc,
    (truthy (State.name (state m))) eqn:Hs; simpl.
  - case_bool_decide as Heq; simpl.
    + right. right. done.
    + left. done.
  - right. left. exists (Config.name config).
    by rewrite Config_set_name_id.
  - right. right. done.
  - right. left. eexists. done.
Qed.

Lemma only_issues_create_or_update dynamodb prevTable config :
  only_issues (create_or_update aws dynamodb prevTable config).
Proof.
  unfold create_or_update.
  destruct prevTable;
    repeat first
      [ apply only_issues_ret | apply only_issues_throw
      | apply only_issues_get_state | apply only_issues_createTable
      | apply only_issues_updateTable
      | apply only_issues_bind; [|intros ?]
      | case_match ].
Qed.

(** The events of the end of [updateTable] are sleeps and describe calls. *)
Lemma streamArn_after_update_quiet dynamodb name stream (m : Machine W) :
  ∃ evs,
    trace (streamArn_after_update aws dynamodb name stream m).2 = trace m ++ evs
    ∧ state (streamArn_after_update aws dynamodb name stream m).2 = state m
    ∧ mutating_calls evs = [].
Proof.
  unfold streamArn_after_update.
  destruct stream as [s|]; [|exists []; by rewrite app_nil_r].
  destruct (truthy_bool (StreamEnabled s)); [|exists []; by rewrite app_nil_r].
  unfold bind, getStreamArn.
  destruct (getStreamArn_loop_result aws (maxTries - 1) dynamodb name m)
    as (n & _ & Hafter & _).
  destruct (getStreamArn_loop aws (maxTries - 1) dynamodb name m) as [[a|e] m'];
    simpl in *; subst m'; exists (poll_events dynamodb name n);
    (split; [apply after_polls_trace|]);
    (split; [apply after_polls_trace|]);
    apply mutating_calls_poll_events.
Qed.

(** The configuration and machine that name resolution returns. *)
Lemma resolve_name_returns random config (m : Machine W) config0 m0 :
  resolve_name random config m = (Return config0, m0) →
  world m0 = world m ∧ trace m0 = trace m
  ∧ Config.region config0 = Config.region config
  ∧ Config.replicas config0 = Config.replicas config
  ∧ Config.deletionPolicy config0 = Config.deletionPolicy config
  ∧ Config.name config0
    = (if truthy (Config.name config) then Config.name config
       else if truthy (State.name (state m)) then Config.name config
       else Some (String.append "dynamodb-table-" random))
  ∧ state m0
    = (if truthy (State.name (state m)) then state m
       else State.set_name (Config.name config0) (state m)).
Proof.
  unfold resolve_name, bind, get_state, put_state, ret, throw.
  destruct (truthy (Config.name config)) eqn:Hc,
    (truthy (State.name (state m))) eqn:Hs; cbn [negb andb].
  - case_bool_decide; [|done]. by intros [= <- <-].
  - by intros [= <- <-].
  - by intros [= <- <-].
  - by intros [= <- <-].
Qed.

(** [deploy], step by step. *)
Lemma deploy_unfold credentials random inputs (m : Machine W) :
  deploy aws credentials random inputs m =
    if bool_decide (length (fst <$> credentials) = 0%nat) then
      (Throw CredentialsNotFound, m)
    else
      match resolve_name random (mergeDeepRight_defaults inputs) m with
      | (Throw e, m0) => (Throw e, m0)
      | (Return config0, m0) =>
          let dynamodb : Client := Some (Config.region config0) in
          match describeTable aws dynamodb (Config.name config0) m0 with
          | (Throw e, m1) => (Throw e, m1)
          | (Return prevTable, m1) =>
              match create_or_update aws dynamodb prevTable config0 m1 with
              | (Throw e, m2) => (Throw e, m2)
              | (Return config, m2) =>
                  let m3 := {| world := world m2; trace := trace m2;
                               state := recorded_state config |} in
                  let prevReplicas :=
                    match prevTable with
                    | Table prev => default [] (TableView.replicas prev)
                    | Null | Undefined => []
                    end in
                  match updateReplicas aws dynamodb (Config.name config)
                          (Some prevReplicas) (Some (Config.replicas config)) m3 with
                  | (Throw e, m4) => (Throw e, m4)
                  | (Return _, m4) => (Return (Outputs.of_config config), m4)
                  end
              end
          end
      end.
Proof.
  unfold deploy. case_bool_decide; [done|].
  unfold bind at 1. destruct (resolve_name _ _ _) as [[config0|e] m0]; [|done].
  unfold bind at 1. destruct (describeTable _ _ _ _) as [[prevTable|e] m1]; [|done].
  unfold bind at 1. destruct (create_or_update _ _ _ _ _) as [[config|e] m2]; [|done].
  unfold bind at 1. unfold put_state at 1. unfold bind at 1.
  cbv zeta. destruct (updateReplicas _ _ _ _ _ _) as [[[]|e] m4]; done.
Qed.

End Deploy.

(** C4, as the code has it.  When name resolution passes, the observer
    finds the table, and the effective region is not the recorded one,
    [deploy] throws the region error.  The describe call that found the
    table is the only event of the run: nothing that creates, updates,
    deletes or waits is issued, and the component state is as name
    resolution left it. *)
Theorem region_change_rejected_after_describe {W} (aws : DynamoDB W) credentials
    random inputs (m : Machine W) config m1 data :
  credentials ≠ [] →
  resolve_name random (mergeDeepRight_defaults inputs) m = (Return config, m1) →
  (sdk_describeTable aws (Some (Config.region config)) (Config.name config)
     (world m)).1 = inr data →
  Some (default "us-east-1" (Inputs.region inputs)) ≠ State.region (state m) →
  let r := deploy aws credentials random inputs m in
  r.1 = Throw RegionChangeError
  ∧ issued m r
    = [DescribeTableCall (Some (Config.region config)) (Config.name config)]
  ∧ mutating_calls (issued m r) = []
  ∧ state r.2 = state m1.
Proof.
  intros Hcred Hresolve Hdata Hregion r.
  assert (Hm1 : world m1 = world m ∧ trace m1 = trace m
                ∧ State.region (state m1) = State.region (state m)
                ∧ Config.region config = default "us-east-1" (Inputs.region inputs)).
  { destruct (resolve_name_cases random (mergeDeepRight_defaults inputs) m)
      as [(H & _)|[(n & H & _)|(H & _)]];
      rewrite H in Hresolve; by simplify_eq. }
  destruct Hm1 as (Hw & Ht & Hr & Hc).
  assert (Hrun : r = (Throw RegionChangeError,
                      {| world := (sdk_describeTable aws (Some (Config.region config))
                                     (Config.name config) (world m)).2;
                         trace := trace m ++ [DescribeTableCall (Some (Config.region config))
                                                (Config.name config)];
                         state := state m1 |})).
  { unfold r, deploy. rewrite bool_decide_eq_false_2.
    2: { destruct credentials; [done|]. simpl. lia. }
    unfold bind at 1. rewrite Hresolve.
    unfold bind at 1. rewrite describeTable_run, Hw, Ht, Hdata.
    unfold bind at 1. unfold create_or_update. unfold bind at 1.
    unfold get_state. simpl state.
    rewrite bool_decide_eq_false_2; [done|]. simpl. congruence. }
  rewrite Hrun. simpl. split; [done|].
  assert (Hissued : issued m r = [DescribeTableCall (Some (Config.region config))
                                    (Config.name config)])
    by (apply issued_app; by rewrite Hrun).
  rewrite Hrun in Hissued. by rewrite Hissued.
Qed.

(** Scenario D: the recorded region is [us-east-1], the inputs ask for
    [eu-west-1], and the provider knows the table there. *)
Lemma region_change_rejected_after_describe_witness :
  let r := deploy scripted some_credentials "x1" move_to_eu
             (start [inr plain_orders] (orders_state None)) in
  r.1 = Throw RegionChangeError
  ∧ issued (start [inr plain_orders] (orders_state None)) r
    = [DescribeTableCall (Some "eu-west-1") (Some "orders")]
  ∧ mutating_calls (issued (start [inr plain_orders] (orders_state None)) r) = []
  ∧ state r.2 = orders_state None.
Proof.
  apply (region_change_rejected_after_describe scripted some_credentials "x1"
           move_to_eu (start [inr plain_orders] (orders_state None))
           (mergeDeepRight_defaults move_to_eu)
           (start [inr plain_orders] (orders_state None)) plain_orders).
  - discriminate.
  - reflexivity.
  - reflexivity.
  - discriminate.
Defined.

(** C4 as stated fails: in scenario D the run has issued a provider
    call, the describe-table call, when the region error is thrown. *)
Lemma region_change_issues_describe_call :
  let r := deploy scripted some_credentials "x1" move_to_eu
             (start [inr plain_orders] (orders_state None)) in
  r.1 = Throw RegionChangeError
  ∧ List.filter is_provider_call (trace r.2)
    = [DescribeTableCall (Some "eu-west-1") (Some "orders")].
Proof. split; reflexivity. Qed.

(** C7, as the code has it.  A run of [deploy] is one of three.

    It is refused, without credentials or for a changed name, and the
    machine is untouched.

    Or name resolution returns.  Then the component state is at once, before
    any provider call, the state [st1]: the state as it was when it records
    a name, and otherwise that state with the adopted name written to it
    (the name of the inputs, or ["dynamodb-table-"] and the random suffix).
    The describe call and the create-or-update step run on [st1] and do not
    write the state.  When that step throws, the run throws the same
    error and the state is [st1].

    When that step returns, [arn], [streamArn], [name], [region] and
    [deletionPolicy] are written from the configuration it returns, and
    the replica step runs on the state so recorded: whether the replica
    step returns or throws, the final state is the recorded one. *)
Theorem deploy_records_state_after_table_step {W} (aws : DynamoDB W) credentials
    random inputs (m : Machine W) :
  let r := deploy aws credentials random inputs m in
  let adopted :=
    if truthy (Inputs.name inputs) then Inputs.name inputs
    else Some (String.append "dynamodb-table-" random) in
  let st1 :=
    if truthy (State.name (state m)) then state m
    else State.set_name adopted (state m) in
  (credentials = [] ∧ r = (Throw CredentialsNotFound, m))
  ∨ (credentials ≠ []
     ∧ resolve_name random (mergeDeepRight_defaults inputs) m
       = (Throw NameChangeError, m)
     ∧ r = (Throw NameChangeError, m))
  ∨ (credentials ≠ []
     ∧ ∃ config0 m0 prevTable m1,
         let dynamodb : Client := Some (Config.region config0) in
         resolve_name random (mergeDeepRight_defaults inputs) m
         = (Return config0, m0)
         ∧ world m0 = world m ∧ trace m0 = trace m ∧ state m0 = st1
         ∧ describeTable aws dynamodb (Config.name config0) m0
           = (Return prevTable, m1)
         ∧ state m1 = st1
         ∧ ((∃ e m2,
               create_or_update aws dynamodb prevTable config0 m1 = (Throw e, m2)
               ∧ r = (Throw e, m2)
               ∧ state r.2 = st1)
            ∨ (∃ config m2,
                 create_or_update aws dynamodb prevTable config0 m1
                 = (Return config, m2)
                 ∧ state m2 = st1
                 ∧ let recorded :=
                     {| world := world m2; trace := trace m2;
                        state := recorded_state config |} in
                   let prevReplicas :=
                     match prevTable with
                     | Table prev => default [] (TableView.replicas prev)
                     | Null | Undefined => []
                     end in
                   let replicated :=
                     updateReplicas aws dynamodb (Config.name config)
                       (Some prevReplicas) (Some (Config.replicas config))
                       recorded in
                   r.2 = replicated.2
                   ∧ r.1 = match replicated.1 with
                           | Return _ => Return (Outputs.of_config config)
                           | Throw e => Throw e
                           end
                   ∧ state r.2 = recorded_state config))).
Proof.
  intros r adopted st1. unfold r. rewrite deploy_unfold.
  destruct (decide (credentials = [])) as [->|Hcred]; [by left|].
  right. rewrite bool_decide_eq_false_2 by (destruct credentials; [done|simpl; lia]).
  destruct (resolve_name random (mergeDeepRight_defaults inputs) m)
    as [[config0|e] m0] eqn:Hresolve.
  2: { left. split; [done|].
       destruct (resolve_name_cases random (mergeDeepRight_defaults inputs) m)
         as [(H & _)|[(n & H & _)|(H & _)]]; rewrite H in Hresolve;
         by simplify_eq. }
  right. split; [done|]. cbv zeta.
  pose proof (resolve_name_returns _ _ _ _ _ Hresolve)
    as (Hw0 & Ht0 & _ & _ & _ & Hname & Hs0).
  assert (Hst1 : state m0 = st1).
  { rewrite Hs0. unfold st1, adopted. rewrite Hname.
    cbn [Config.name mergeDeepRight_defaults].
    by destruct (truthy (State.name (state m))). }
  pose proof (only_issues_describeTable aws (Some (Config.region config0))
                (Config.name config0) m0) as [Hsd _].
  destruct (describeTable_never_throws aws (Some (Config.region config0))
              (Config.name config0) m0) as [prevTable HprevTable].
  destruct (describeTable aws (Some (Config.region config0)) (Config.name config0) m0)
    as [o m1] eqn:Hdescribe. cbn [fst snd] in Hsd, HprevTable. subst o.
  exists config0, m0, prevTable, m1.
  split; [done|]. split; [done|]. split; [done|]. split; [done|].
  split; [exact Hdescribe|]. split; [congruence|].
  pose proof (only_issues_create_or_update aws (Some (Config.region config0))
                prevTable config0 m1) as [Hsc _].
  destruct (create_or_update aws (Some (Config.region config0)) prevTable config0 m1)
    as [[config|e] m2]; cbn [snd] in Hsc.
  2: { left. exists e, m2. split; [done|]. split; [done|]. cbn [snd]. congruence. }
  right. exists config, m2. split; [done|]. split; [congruence|].
  match goal with |- context [updateReplicas aws ?d ?n ?p ?c ?m3] =>
    pose proof (only_issues_updateReplicas aws d n p c m3) as [Hsr _];
    destruct (updateReplicas aws d n p c m3) as [[[]|e] m4]
  end; cbn [fst snd state] in *; done.
Qed.

(** A first deploy with a replica whose wait for the table is rejected:
    the table was created, the run throws, and the state is the recorded
    one. *)
Example failed_replica_step_keeps_recorded_state :
  let inputs :=
    {| Inputs.attributeDefinitions := None; Inputs.keySchema := None;
       Inputs.globalSecondaryIndexes := None; Inputs.localSecondaryIndexes := None;
       Inputs.name := Some "orders"; Inputs.region := None;
       Inputs.replicas := Some [ {| RegionName := "eu-west-1" |} ];
       Inputs.stream := None; Inputs.deletionPolicy := Some "retain" |} in
  let r := deploy scripted some_credentials "x1" inputs
             (start [inl not_found; inr plain_orders; inl access_denied]
                State.empty) in
  r.1 = Throw (SdkError access_denied)
  ∧ state r.2 = orders_state (Some "retain").
Proof. split; reflexivity. Qed.

(** C7 as stated fails on a first deploy whose create-table call is
    rejected: nothing was committed, and the component state has changed,
    it now carries the adopted name. *)
Lemma failed_first_deploy_keeps_adopted_name :
  let inputs := orders_inputs None None None in
  let r := deploy scripted some_credentials "x1" inputs
             (start [inl not_found; inl access_denied] State.empty) in
  r.1 = Throw (SdkError access_denied)
  ∧ state r.2 = State.set_name (Some "orders") State.empty
  ∧ state r.2 ≠ State.empty.
Proof. repeat split. discriminate. Qed.

Lemma name_difference_nil xs ys :
  (∀ n, n ∈ IndexName <$> xs → n ∈ IndexName <$> ys) → name_difference xs ys = [].
Proof.
  intros Hsub. unfold name_difference.
  induction xs as [|x xs IH]; [done|].
  rewrite filter_cons_False.
  - apply IH. intros n Hn. apply Hsub. rewrite fmap_cons. by right.
  - intros Hx. apply Hx, Hsub. rewrite fmap_cons. by left.
Qed.

Lemma getGlobalIndexesUpdates_same_names prev cur :
  (∀ n, n ∈ IndexName <$> default [] cur ↔ n ∈ IndexName <$> default [] prev) →
  getGlobalIndexesUpdates prev cur = {| Create := None; Delete := None |}.
Proof.
  intros Hsame. unfold getGlobalIndexesUpdates. cbv zeta.
  rewrite toCreate_name_difference, toDelete_name_difference.
  rewrite !name_difference_nil; [done|intros n; apply Hsame..].
Qed.

Lemma getStreamUpdates_same_enabled prevStream stream :
  streamEnabled prevStream = streamEnabled stream →
  getStreamUpdates prevStream stream = None.
Proof.
  intros Hsame. unfold getStreamUpdates. rewrite Hsame.
  by destruct (streamEnabled stream).
Qed.

(** The update branch when nothing differs: one update call without
    index and stream fields, then the stream step. *)
Lemma create_or_update_same {W} (aws : DynamoDB W) (config : Config.t) data
    (m : Machine W) w1 res w2 sa m3 :
  let dynamodb : Client := Some (Config.region config) in
  let name := Config.name config in
  let params :=
    updateTable_params name (Config.attributeDefinitions config)
      {| Create := None; Delete := None |} None in
  State.region (state m) = Some (Config.region config) →
  (∀ n, n ∈ IndexName <$> Config.globalSecondaryIndexes config
        ↔ n ∈ IndexName <$> default [] (TableDescription.GlobalSecondaryIndexes data)) →
  streamEnabled (TableDescription.StreamSpecification data)
  = streamEnabled (Some (Config.stream config)) →
  sdk_updateTable aws dynamodb params w1 = (inr res, w2) →
  streamArn_after_update aws dynamodb name (Some (Config.stream config))
    {| world := w2;
       trace := trace m ++ [DescribeTableCall dynamodb name;
                            UpdateTableCall dynamodb params];
       state := state m |}
  = (Return sa, m3) →
  create_or_update aws dynamodb (Table (TableView.of_description data)) config
    {| world := w1; trace := trace m ++ [DescribeTableCall dynamodb name];
       state := state m |}
  = (Return (Config.set_arns (Some (TableDescription.TableArn data)) (Some sa) config),
     m3).
Proof.
  intros dynamodb name params HsRegion Hindexes Hstream Hupdate Hpoll.
  subst dynamodb name params.
  unfold create_or_update. unfold bind at 1. unfold get_state.
  cbn [state world trace]. rewrite HsRegion, bool_decide_eq_true_2 by done.
  cbn [negb]. unfold updateTable.
  cbn [TableView.globalSecondaryIndexes TableView.stream TableView.of_description
       TableView.arn Config.name Config.attributeDefinitions
       Config.globalSecondaryIndexes Config.stream Config.set_arns Config.arn].
  rewrite getGlobalIndexesUpdates_same_names by exact Hindexes.
  rewrite getStreamUpdates_same_enabled by exact Hstream.
  cbv zeta. unfold bind at 1. unfold bind at 1. rewrite request_run.
  cbn [world trace state]. rewrite Hupdate. cbn [fst snd].
  unfold bind at 1. rewrite <- app_assoc. cbn [app]. rewrite Hpoll.
  by destruct config.
Qed.

(** C6, as the code has it.  Take a deploy with a named configuration
    whose indexes (by name), stream enablement and replicas are those of
    the observed table, on a component state that already records this
    configuration and this table: name, region, deletion policy, the
    table's arn and the stream identifier the run obtains.  If the
    provider accepts the update call, the run returns, the component state
    is unchanged, and the only call that is not a describe call is one
    update-table call carrying the table name, the attribute definitions
    and the billing mode, with no index update, no stream specification
    and no replica update. *)
Theorem redeploy_of_observed_config {W} (aws : DynamoDB W) credentials random
    inputs (m : Machine W) data w1 res w2 sa m3 :
  let config := mergeDeepRight_defaults inputs in
  let dynamodb : Client := Some (Config.region config) in
  let name := Config.name config in
  let params :=
    updateTable_params name (Config.attributeDefinitions config)
      {| Create := None; Delete := None |} None in
  let m2 :=
    {| world := w2;
       trace := trace m ++ [DescribeTableCall dynamodb name;
                            UpdateTableCall dynamodb params];
       state := state m |} in
  let recorded :=
    Config.set_arns (Some (TableDescription.TableArn data)) (Some sa) config in
  credentials ≠ [] →
  truthy name = true →
  sdk_describeTable aws dynamodb name (world m) = (inr data, w1) →
  (∀ n, n ∈ IndexName <$> Config.globalSecondaryIndexes config
        ↔ n ∈ IndexName <$> default [] (TableDescription.GlobalSecondaryIndexes data)) →
  streamEnabled (TableDescription.StreamSpecification data)
  = streamEnabled (Some (Config.stream config)) →
  regions (default [] (TableDescription.Replicas data))
  ≡ₚ regions (Config.replicas config) →
  sdk_updateTable aws dynamodb params w1 = (inr res, w2) →
  streamArn_after_update aws dynamodb name (Some (Config.stream config)) m2
  = (Return sa, m3) →
  state m = recorded_state recorded →
  let r := deploy aws credentials random inputs m in
  r = (Return (Outputs.of_config recorded), m3)
  ∧ state r.2 = state m
  ∧ mutating_calls (issued m r) = [UpdateTableCall dynamodb params]
  ∧ UpdateTableInput.GlobalSecondaryIndexUpdates params = None
  ∧ UpdateTableInput.StreamSpecification params = None
  ∧ UpdateTableInput.ReplicaUpdates params = None.
Proof.
  intros config dynamodb name params m2 recorded
    Hcred Hname Hdescribe Hindexes Hstream Hreplicas Hupdate Hpoll Hstate r.
  assert (HsName : State.name (state m) = name) by (by rewrite Hstate).
  assert (HsRegion : State.region (state m) = Some (Config.region config))
    by (by rewrite Hstate).
  destruct (streamArn_after_update_quiet aws dynamodb name
              (Some (Config.stream config)) m2) as (evs & Htrace & Hst3 & Hquiet).
  rewrite Hpoll in Htrace, Hst3. simpl in Htrace, Hst3.
  assert (Hrun : r = (Return (Outputs.of_config recorded), m3)).
  { unfold r. rewrite deploy_unfold.
    rewrite bool_decide_eq_false_2.
    2: { destruct credentials; [done|]. simpl. lia. }
    fold config. assert (resolve_name random config m = (Return config, m)) as ->.
    { unfold resolve_name, bind, get_state. fold name.
      rewrite HsName, Hname. simpl. by rewrite bool_decide_eq_true_2. }
    cbv zeta. rewrite describeTable_run. fold dynamodb name.
    rewrite Hdescribe. cbn [fst snd]. cbv beta iota.
    match goal with |- context [create_or_update ?a ?d ?p ?c ?mm] =>
      assert (Hcu : create_or_update a d p c mm = (Return recorded, m3))
    end.
    { exact (create_or_update_same aws config data m w1 res w2 sa m3
               HsRegion Hindexes Hstream Hupdate Hpoll). }
    rewrite Hcu. cbv beta iota zeta.
    match goal with
    | |- context [{| world := world m3; trace := trace m3; state := ?s |}] =>
        replace {| world := world m3; trace := trace m3; state := s |} with m3
    end.
    2: { symmetry. etrans; [|apply Machine_eta]. f_equal.
         rewrite Hst3. symmetry. exact Hstate. }
    match goal with |- context [updateReplicas ?a ?d ?n ?p ?c ?mm] =>
      assert (Hur : updateReplicas a d n p c mm = (Return (), mm))
        by (apply updateReplicas_noop_iff; exact Hreplicas)
    end.
    by rewrite Hur. }
  split; [exact Hrun|]. split; [by rewrite Hrun|].
  split; [|done].
  rewrite (issued_app m r (DescribeTableCall dynamodb name
                           :: UpdateTableCall dynamodb params :: evs)).
  - unfold mutating_calls in *. simpl. by rewrite Hquiet.
  - rewrite Hrun. simpl. rewrite Htrace. by rewrite <- app_assoc.
Qed.

(** A second deploy of [orders] with its stream enabled: the poller finds
    the recorded identifier at once, and the state stays as it was. *)
Lemma redeploy_of_observed_config_witness :
  let m :=
    start [inr streaming_orders; inr streaming_orders; inr streaming_orders]
      {| State.name := Some "orders";
         State.arn := Some "arn:aws:dynamodb:us-east-1:1:table/orders";
         State.region := Some "us-east-1";
         State.streamArn := Some (ArnString orders_stream_arn);
         State.deletionPolicy := Some "retain" |} in
  state (deploy scripted some_credentials "x1"
           (orders_inputs None (Some stream_on) (Some "retain")) m).2
  = state m.
Proof.
  refine (proj1 (proj2
    (redeploy_of_observed_config scripted some_credentials "x1"
       (orders_inputs None (Some stream_on) (Some "retain"))
       (start [inr streaming_orders; inr streaming_orders; inr streaming_orders]
          {| State.name := Some "orders";
             State.arn := Some "arn:aws:dynamodb:us-east-1:1:table/orders";
             State.region := Some "us-east-1";
             State.streamArn := Some (ArnString orders_stream_arn);
             State.deletionPolicy := Some "retain" |})
       streaming_orders [inr streaming_orders; inr streaming_orders]
       streaming_orders [inr streaming_orders]
       (ArnString orders_stream_arn) _ _ _ _ _ _ _ _ _ _))).
  - discriminate.
  - reflexivity.
  - reflexivity.
  - intros n. reflexivity.
  - reflexivity.
  - reflexivity.
  - reflexivity.
  - reflexivity.
  - reflexivity.
Defined.

(** C6 as stated fails when only the deletion policy changes: indexes,
    stream specification and replicas of the desired configuration are
    those of the observed table, and the run rewrites the recorded
    deletion policy. *)
Lemma redeploy_with_new_policy_changes_state :
  let inputs := orders_inputs None None (Some "delete") in
  let config := mergeDeepRight_defaults inputs in
  let m := start [inr bare_orders; inr bare_orders] (orders_state (Some "retain")) in
  let r := deploy scripted some_credentials "x1" inputs m in
  TableDescription.GlobalSecondaryIndexes bare_orders
  = Some (Config.globalSecondaryIndexes config)
  ∧ TableDescription.StreamSpecification bare_orders = Some (Config.stream config)
  ∧ TableDescription.Replicas bare_orders = Some (Config.replicas config)
  ∧ (∃ out, r.1 = Return out)
  ∧ mutating_calls (trace r.2)
    = [UpdateTableCall (Some "us-east-1")
         {| UpdateTableInput.TableName := Some "orders";
            UpdateTableInput.AttributeDefinitions :=
              Some [ {| AttributeName := "id"; AttributeType := "S" |} ];
            UpdateTableInput.BillingMode := Some "PAY_PER_REQUEST";
            UpdateTableInput.GlobalSecondaryIndexUpdates := None;
            UpdateTableInput.StreamSpecification := None;
            UpdateTableInput.ReplicaUpdates := None |}]
  ∧ state m = orders_state (Some "retain")
  ∧ state r.2 = orders_state (Some "delete")
  ∧ state r.2 ≠ state m.
Proof. repeat split; [by eexists | discriminate]. Qed.

(** * Further properties of the code *)

(** ** Index payload *)

Lemma name_difference_nil_inv xs ys n :
  name_difference xs ys = [] → n ∈ IndexName <$> xs → n ∈ IndexName <$> ys.
Proof.
  unfold name_difference. intros Hnil Hn.
  apply list_elem_of_fmap in Hn as (x & -> & Hx).
  destruct (decide (IndexName x ∈ IndexName <$> ys)) as [|Hout]; [done|].
  by destruct (filter_nil_not_elem_of _ _ x Hnil Hout).
Qed.

(** The index payload is empty exactly when the previous and the desired
    indexes have the same set of names: order, repetitions and every
    other field of an index (key schema, projection) play no part, so a
    changed definition under an unchanged name is never submitted. *)
Theorem index_payload_empty_iff_same_names prev cur :
  isEmpty_indexUpdates (getGlobalIndexesUpdates prev cur) = true
  ↔ ∀ n, n ∈ IndexName <$> default [] cur ↔ n ∈ IndexName <$> default [] prev.
Proof.
  rewrite isEmpty_indexUpdates_spec. split.
  - intros [Hc Hd] n. split; by apply name_difference_nil_inv.
  - intros Hsame. split; apply name_difference_nil; intros n; apply Hsame.
Qed.

(** The Create entry is one of the desired indexes and no previous index
    has its name; the Delete entry names a previous index and no desired
    index has that name.  So one payload never creates and deletes the
    same name. *)
Theorem index_payload_entries_sound prev cur :
  let u := getGlobalIndexesUpdates prev cur in
  (∀ g, Create u = Some g →
     g ∈ default [] cur ∧ IndexName g ∉ IndexName <$> default [] prev)
  ∧ (∀ d, Delete u = Some d →
       DeleteIndexName d ∈ IndexName <$> default [] prev
       ∧ DeleteIndexName d ∉ IndexName <$> default [] cur)
  ∧ (∀ g d, Create u = Some g → Delete u = Some d →
       IndexName g ≠ DeleteIndexName d).
Proof.
  cbv zeta. unfold getGlobalIndexesUpdates. cbv zeta. cbn [Create Delete].
  rewrite toCreate_name_difference, toDelete_name_difference, head_fmap.
  unfold name_difference.
  assert (Hc : ∀ g, head (filter (λ x, IndexName x ∉ IndexName <$> default [] prev)
                            (default [] cur)) = Some g →
               g ∈ default [] cur ∧ IndexName g ∉ IndexName <$> default [] prev).
  { intros g Hg. apply head_Some_elem_of, list_elem_of_filter in Hg. tauto. }
  assert (Hd : ∀ d, (λ g, {| DeleteIndexName := IndexName g |}) <$>
                      head (filter (λ x, IndexName x ∉ IndexName <$> default [] cur)
                              (default [] prev)) = Some d →
               DeleteIndexName d ∈ IndexName <$> default [] prev
               ∧ DeleteIndexName d ∉ IndexName <$> default [] cur).
  { intros d Hd. apply fmap_Some in Hd as (g & Hg & ->). simpl.
    apply head_Some_elem_of, list_elem_of_filter in Hg as [Hout Hin].
    split; [|done]. apply list_elem_of_fmap. eauto. }
  split; [exact Hc|]. split; [exact Hd|].
  intros g d Hg Hdel Heq. apply Hc in Hg as [Hin _]. apply Hd in Hdel as [_ Hout].
  apply Hout. rewrite <- Heq. apply list_elem_of_fmap. eauto.
Qed.

(** ** Replica updates *)

Lemma elem_of_difference_go seen l x :
  x ∈ difference_go seen l ↔ x ∈ l ∧ x ∉ seen.
Proof.
  revert seen. induction l as [|y l IH]; intros seen; simpl.
  - rewrite elem_of_nil. tauto.
  - case_bool_decide as Hy.
    + rewrite IH, elem_of_cons. split; [tauto|].
      intros [[->|?] ?]; [done|tauto].
    + rewrite !elem_of_cons, IH, elem_of_cons.
      destruct (decide (x = y)) as [->|]; tauto.
Qed.

Lemma NoDup_difference_go seen l : NoDup (difference_go seen l).
Proof.
  revert seen. induction l as [|y l IH]; intros seen; simpl.
  - constructor.
  - case_bool_decide; [apply IH|]. constructor; [|apply IH].
    rewrite elem_of_difference_go, elem_of_cons. tauto.
Qed.

Lemma elem_of_sort l x : x ∈ sort l ↔ x ∈ l.
Proof. unfold sort. by rewrite merge_sort_Permutation. Qed.

(** [updateReplicas] when the collections differ, step by step. *)
Lemma updateReplicas_run {W} (aws : DynamoDB W) dynamodb name
    (prev cur : list Replica) (m : Machine W) :
  ¬ regions prev ≡ₚ regions cur →
  let adds := difference (sort (regions cur)) (sort (regions prev)) in
  let dels := difference (sort (regions prev)) (sort (regions cur)) in
  let params :=
    replica_params name ((ReplicaCreate <$> adds) ++ (ReplicaDelete <$> dels)) in
  let waited := (sdk_waitFor_tableExists aws dynamodb name (world m)).2 in
  updateReplicas aws dynamodb name (Some prev) (Some cur) m =
    match (sdk_waitFor_tableExists aws dynamodb name (world m)).1 with
    | inl err =>
        (Throw (SdkError err),
         {| world := waited; trace := trace m ++ [WaitForCall dynamodb name];
            state := state m |})
    | inr _ =>
        (match (sdk_updateTable aws dynamodb params waited).1 with
         | inl err => Throw (SdkError err)
         | inr _ => Return ()
         end,
         {| world := (sdk_updateTable aws dynamodb params waited).2;
            trace := trace m ++ [WaitForCall dynamodb name;
                                 UpdateTableCall dynamodb params];
            state := state m |})
    end.
Proof.
  intros Hdiff adds dels params waited. subst adds dels params waited.
  unfold updateReplicas, regions. simpl default.
  rewrite bool_decide_eq_false_2 by (by rewrite sort_eq_iff).
  cbv zeta. unfold bind at 1. unfold waitForActive. rewrite request_run.
  destruct (sdk_waitFor_tableExists _ _ _ _).1; [done|].
  unfold bind at 1. rewrite request_run. cbn [world trace state].
  rewrite <- app_assoc. by destruct (sdk_updateTable _ _ _ _).1.
Qed.

(** When the two region collections differ, [updateReplicas] waits for
    the table and then submits one update whose Create entries are the
    desired regions that are not previous ones and whose Delete entries
    are the previous regions that are not desired ones, each region once,
    creations first.  When the wait is rejected, the error is thrown and
    no update is submitted. *)
Theorem replica_update_is_set_difference {W} (aws : DynamoDB W) dynamodb name
    (prev cur : list Replica) (m : Machine W) :
  ¬ regions prev ≡ₚ regions cur →
  let r := updateReplicas aws dynamodb name (Some prev) (Some cur) m in
  (∀ err, (sdk_waitFor_tableExists aws dynamodb name (world m)).1 = inl err →
     r.1 = Throw (SdkError err) ∧ issued m r = [WaitForCall dynamodb name])
  ∧ (∀ u, (sdk_waitFor_tableExists aws dynamodb name (world m)).1 = inr u →
       ∃ adds dels,
         issued m r
         = [ WaitForCall dynamodb name;
             UpdateTableCall dynamodb
               (replica_params name
                  ((ReplicaCreate <$> adds) ++ (ReplicaDelete <$> dels))) ]
         ∧ (∀ x, x ∈ adds ↔ x ∈ regions cur ∧ x ∉ regions prev)
         ∧ (∀ x, x ∈ dels ↔ x ∈ regions prev ∧ x ∉ regions cur)
         ∧ NoDup adds ∧ NoDup dels).
Proof.
  intros Hdiff r. unfold r. rewrite updateReplicas_run by done. cbv zeta.
  split.
  - intros err ->. split; [done|]. by apply issued_app.
  - intros u ->. eexists _, _. split; [by apply issued_app|].
    split; [|split; [|split]].
    + intros x. unfold difference. by rewrite elem_of_difference_go, !elem_of_sort.
    + intros x. unfold difference. by rewrite elem_of_difference_go, !elem_of_sort.
    + apply NoDup_difference_go.
    + apply NoDup_difference_go.
Qed.

(** Scenario C: a second region is added to [us-east-1]. *)
Lemma replica_update_is_set_difference_witness :
  let prev := [ {| RegionName := "us-east-1" |} ] in
  let cur := [ {| RegionName := "us-east-1" |}; {| RegionName := "eu-west-1" |} ] in
  let m := start [inr plain_orders; inr plain_orders] State.empty in
  ∃ adds dels,
    issued m (updateReplicas scripted (Some "us-east-1") (Some "orders")
                (Some prev) (Some cur) m)
    = [ WaitForCall (Some "us-east-1") (Some "orders");
        UpdateTableCall (Some "us-east-1")
          (replica_params (Some "orders")
             ((ReplicaCreate <$> adds) ++ (ReplicaDelete <$> dels))) ]
    ∧ (∀ x, x ∈ adds ↔ x ∈ regions cur ∧ x ∉ regions prev)
    ∧ (∀ x, x ∈ dels ↔ x ∈ regions prev ∧ x ∉ regions cur)
    ∧ NoDup adds ∧ NoDup dels.
Proof.
  refine (proj2
    (replica_update_is_set_difference scripted (Some "us-east-1") (Some "orders")
       [ {| RegionName := "us-east-1" |} ]
       [ {| RegionName := "us-east-1" |}; {| RegionName := "eu-west-1" |} ]
       (start [inr plain_orders; inr plain_orders] State.empty) _) () eq_refl).
  intros Hperm. apply Permutation_length in Hperm. discriminate.
Defined.

Example replica_update_scenario_c :
  issued (start [inr plain_orders; inr plain_orders] State.empty)
    (updateReplicas scripted (Some "us-east-1") (Some "orders")
       (Some [ {| RegionName := "us-east-1" |} ])
       (Some [ {| RegionName := "us-east-1" |}; {| RegionName := "eu-west-1" |} ])
       (start [inr plain_orders; inr plain_orders] State.empty))
  = [ WaitForCall (Some "us-east-1") (Some "orders");
      UpdateTableCall (Some "us-east-1")
        (replica_params (Some "orders") [ReplicaCreate "eu-west-1"]) ].
Proof. reflexivity. Qed.

(** [deleteReplicas] issues nothing for a missing or empty replica list.
    Otherwise it submits one update with one Delete entry per listed
    replica, in the listed order, and then waits for the table; when the
    update is rejected the error is thrown and the wait is not issued. *)
Theorem deleteReplicas_calls {W} (aws : DynamoDB W) dynamodb name replicas
    (m : Machine W) :
  let r := deleteReplicas aws dynamodb name replicas m in
  let listed := default [] replicas in
  let params := replica_params name (delete_all listed) in
  (listed = [] → r = (Return (), m))
  ∧ (listed ≠ [] →
     (∀ err, (sdk_updateTable aws dynamodb params (world m)).1 = inl err →
        r.1 = Throw (SdkError err)
        ∧ issued m r = [UpdateTableCall dynamodb params])
     ∧ (∀ res, (sdk_updateTable aws dynamodb params (world m)).1 = inr res →
          issued m r = [UpdateTableCall dynamodb params; WaitForCall dynamodb name]
          ∧ r.1 = match (sdk_waitFor_tableExists aws dynamodb name
                           (sdk_updateTable aws dynamodb params (world m)).2).1 with
                  | inl err => Throw (SdkError err)
                  | inr _ => Return ()
                  end))
  ∧ length (delete_all listed) = length listed
  ∧ ∀ x, ReplicaDelete x ∈ delete_all listed ↔ x ∈ regions listed.
Proof.
  intros r listed params.
  split; [|split; [|split]].
  - intros Hnil. unfold r, deleteReplicas. fold listed. cbv zeta.
    by rewrite bool_decide_eq_true_2.
  - intros Hsome.
    assert (Hrun : r = match (sdk_updateTable aws dynamodb params (world m)).1 with
                       | inl err =>
                           (Throw (SdkError err),
                            {| world := (sdk_updateTable aws dynamodb params (world m)).2;
                               trace := trace m ++ [UpdateTableCall dynamodb params];
                               state := state m |})
                       | inr _ =>
                           waitForActive aws dynamodb name
                             {| world := (sdk_updateTable aws dynamodb params (world m)).2;
                                trace := trace m ++ [UpdateTableCall dynamodb params];
                                state := state m |}
                       end).
    { unfold r, deleteReplicas. fold listed. cbv zeta.
      rewrite bool_decide_eq_false_2 by done. unfold bind at 1.
      fold (delete_all listed). fold params. rewrite request_run.
      by destruct (sdk_updateTable _ _ _ _).1. }
    split.
    + intros err Herr. rewrite Herr in Hrun. rewrite Hrun.
      split; [done|]. by apply issued_app.
    + intros res Hres. rewrite Hres in Hrun. rewrite Hrun.
      unfold waitForActive. rewrite request_run. cbn [world trace state].
      split; [|cbn [fst]; by destruct (sdk_waitFor_tableExists _ _ _ _).1 as [|[]]].
      apply issued_app. cbn [snd trace]. by rewrite <- app_assoc.
  - unfold delete_all. by rewrite length_fmap.
  - intros x. unfold delete_all, regions. rewrite !list_elem_of_fmap. split.
    + intros (y & Heq & Hy). exists y. split; [congruence|done].
    + intros (y & -> & Hy). by exists y.
Qed.

(** [deleteTable], step by step. *)
Lemma deleteTable_run {W} (aws : DynamoDB W) dynamodb name (m : Machine W) :
  deleteTable aws dynamodb name m =
    (match (sdk_deleteTable aws dynamodb name (world m)).1 with
     | inr _ => Return true
     | inl err =>
         if bool_decide (code err = "ResourceNotFoundException")
         then Return false
         else Throw (SdkError err)
     end,
     {| world := (sdk_deleteTable aws dynamodb name (world m)).2;
        trace := trace m ++ [DeleteTableCall dynamodb name];
        state := state m |}).
Proof.
  unfold deleteTable, try_catch, bind. rewrite request_run.
  destruct (sdk_deleteTable _ _ _ _).1 as [err|res]; [|done].
  cbn [error_code]. repeat case_bool_decide; try done; congruence.
Qed.

(** [deleteTable] issues exactly one delete-table call and answers by
    its result: [true] when the provider deleted the table, [false] when
    the provider did not find it, and the provider's error, unchanged, in
    every other case. *)
Theorem deleteTable_outcomes {W} (aws : DynamoDB W) dynamodb name (m : Machine W) :
  let r := deleteTable aws dynamodb name m in
  issued m r = [DeleteTableCall dynamodb name]
  ∧ state r.2 = state m
  ∧ r.1 = match (sdk_deleteTable aws dynamodb name (world m)).1 with
          | inr _ => Return true
          | inl err =>
              if bool_decide (code err = "ResourceNotFoundException")
              then Return false
              else Throw (SdkError err)
          end.
Proof.
  intros r. unfold r. rewrite deleteTable_run.
  split; [by apply issued_app|]. done.
Qed.

(** ** The table update *)

(** [updateTable], step by step. *)
Lemma updateTable_run {W} (aws : DynamoDB W) dynamodb prev cur name attrs
    prevStream stream (m : Machine W) :
  let params :=
    updateTable_params name attrs (getGlobalIndexesUpdates prev cur)
      (getStreamUpdates prevStream stream) in
  let updated :=
    {| world := (sdk_updateTable aws dynamodb params (world m)).2;
       trace := trace m ++ [UpdateTableCall dynamodb params];
       state := state m |} in
  updateTable aws dynamodb prev cur name attrs prevStream stream m =
    match (sdk_updateTable aws dynamodb params (world m)).1 with
    | inl err => (Throw (SdkError err), updated)
    | inr res =>
        match streamArn_after_update aws dynamodb name stream updated with
        | (Return streamArn, m') => (Return (TableDescription.TableArn res, streamArn), m')
        | (Throw e, m') => (Throw e, m')
        end
    end.
Proof.
  cbv zeta. unfold updateTable. cbv zeta. unfold bind at 1. rewrite request_run.
  destruct (sdk_updateTable _ _ _ _).1 as [err|res]; [done|].
  unfold bind at 1.
  by destruct (streamArn_after_update _ _ _ _ _) as [[sa|e] m'].
Qed.

(** A rejected update call is thrown by [updateTable] and ends it.  After
    an accepted one, [updateTable] polls for the stream identifier
    whenever the desired stream is enabled, whatever the previous stream
    was (also when the stream decision is NoChange): between 1 and 5
    rounds of sleeping and describing, and a returned identifier is not
    empty.  When the desired stream is not enabled it returns [false] for
    the identifier and issues nothing more. *)
Theorem updateTable_polls_when_stream_desired {W} (aws : DynamoDB W) dynamodb prev
    cur name attrs prevStream s (m : Machine W) :
  let r := updateTable aws dynamodb prev cur name attrs prevStream (Some s) m in
  let params :=
    updateTable_params name attrs (getGlobalIndexesUpdates prev cur)
      (getStreamUpdates prevStream (Some s)) in
  (∀ err, (sdk_updateTable aws dynamodb params (world m)).1 = inl err →
     r.1 = Throw (SdkError err) ∧ issued m r = [UpdateTableCall dynamodb params])
  ∧ (∀ res, (sdk_updateTable aws dynamodb params (world m)).1 = inr res →
       (truthy_bool (StreamEnabled s) = false →
        r.1 = Return (TableDescription.TableArn res, ArnFalse)
        ∧ issued m r = [UpdateTableCall dynamodb params])
       ∧ (truthy_bool (StreamEnabled s) = true →
          ∃ k, (1 ≤ k ≤ maxTries)%nat
               ∧ issued m r
                 = UpdateTableCall dynamodb params :: poll_events dynamodb name k
               ∧ ∀ out, r.1 = Return out →
                   out.1 = TableDescription.TableArn res
                   ∧ ∃ arn, out.2 = ArnString arn ∧ truthy (Some arn) = true)).
Proof.
  intros r params. unfold r. rewrite updateTable_run. cbv zeta. fold params.
  split.
  - intros err ->. split; [done|]. by apply issued_app.
  - intros res ->. unfold streamArn_after_update. split.
    + intros ->. split; [done|]. by apply issued_app.
    + intros ->. unfold bind, ret, throw, getStreamArn.
      match goal with |- context [getStreamArn_loop aws ?f ?d ?n ?mm] =>
        destruct (getStreamArn_loop_result aws f d n mm)
          as (k & Hk & Hafter & _ & Hout);
        destruct (getStreamArn_loop aws f d n mm) as [[arn|e] m'] eqn:Hloop
      end; cbn [fst snd] in *; subst m'; exists k.
      * split; [done|]. split.
        -- apply issued_app. cbn [snd].
           rewrite (proj1 (after_polls_trace aws dynamodb name k _)).
           cbn [trace]. by rewrite <- app_assoc.
        -- intros out [= <-]. split; [done|]. exists arn. split; [done|].
           by apply identifier_truthy in Hout as [_ ?].
      * split; [done|]. split; [|done].
        apply issued_app. cbn [snd].
        rewrite (proj1 (after_polls_trace aws dynamodb name k _)).
        cbn [trace]. by rewrite <- app_assoc.
Qed.

(** A table whose stream stays enabled: nothing changes, and the run
    still sleeps and describes once. *)
Example updateTable_polls_on_no_change :
  let m := start [inr streaming_orders; inr streaming_orders] State.empty in
  let r := updateTable scripted (Some "us-east-1") None (Some []) (Some "orders") []
             (Some stream_on) (Some stream_on) m in
  getStreamUpdates (Some stream_on) (Some stream_on) = None
  ∧ r.1 = Return ("arn:aws:dynamodb:us-east-1:1:table/orders",
                  ArnString orders_stream_arn)
  ∧ List.filter is_sleep (trace r.2) = [Sleep 10000].
Proof. repeat split. Qed.

(** ** What a run issues *)

Section Emits.
Context {W : Type} (aws : DynamoDB W).

Lemma emits_weaken {A} (P Q : Event → Prop) (c : M W A) :
  (∀ e, P e → Q e) → emits P c → emits Q c.
Proof.
  intros HPQ Hc m. destruct (Hc m) as (evs & Ht & Hevs).
  exists evs. split; [done|]. eapply Forall_impl; eauto.
Qed.

Lemma emits_ret {A} P (a : A) : emits P (ret (W:=W) a).
Proof. intros m. exists []. by rewrite app_nil_r. Qed.

Lemma emits_throw {A} P e : emits P (throw (W:=W) (A:=A) e).
Proof. intros m. exists []. by rewrite app_nil_r. Qed.

Lemma emits_get_state P : emits P (get_state (W:=W)).
Proof. intros m. exists []. by rewrite app_nil_r. Qed.

Lemma emits_put_state P s : emits P (put_state (W:=W) s).
Proof. intros m. exists []. by rewrite app_nil_r. Qed.

Lemma emits_bind {A B} P (c : M W A) (k : A → M W B) :
  emits P c → (∀ a, emits P (k a)) → emits P (bind c k).
Proof.
  intros Hc Hk m. unfold bind. destruct (Hc m) as (evs & Ht & Hevs).
  destruct (c m) as [[a|e] m1]; cbn [snd] in *; [|by exists evs].
  destruct (Hk a m1) as (evs' & Ht' & Hevs').
  exists (evs ++ evs'). split; [by rewrite Ht', Ht, app_assoc|].
  by apply Forall_app.
Qed.

Lemma emits_try_catch {A} P (c : M W A) (h : Exn → M W A) :
  emits P c → (∀ e, emits P (h e)) → emits P (try_catch c h).
Proof.
  intros Hc Hh m. unfold try_catch. destruct (Hc m) as (evs & Ht & Hevs).
  destruct (c m) as [[a|e] m1]; cbn [snd] in *; [by exists evs|].
  destruct (Hh e m1) as (evs' & Ht' & Hevs').
  exists (evs ++ evs'). split; [by rewrite Ht', Ht, app_assoc|].
  by apply Forall_app.
Qed.

Lemma emits_request {R} (P : Event → Prop) ev (op : W → (AwsError + R) * W) :
  P ev → emits P (request ev op).
Proof.
  intros Hev m. rewrite request_run. exists [ev]. split; [done|].
  by constructor.
Qed.

Lemma emits_sleep (P : Event → Prop) ms : P (Sleep ms) → emits P (sleep aws ms).
Proof. intros Hev m. exists [Sleep ms]. split; [done|]. by constructor. Qed.

Local Ltac emits :=
  repeat first
    [ apply emits_ret | apply emits_throw | apply emits_get_state
    | apply emits_put_state
    | apply emits_request; by repeat split
    | apply emits_sleep; by repeat split
    | apply emits_bind; [|intros ?]
    | apply emits_try_catch; [|intros ?]
    | progress cbv zeta
    | case_match ].

(** The events of the utilities, each on the table it is given. *)
Lemma describeTable_emits dynamodb name :
  emits (λ e, e = DescribeTableCall dynamodb name) (describeTable aws dynamodb name).
Proof. unfold describeTable. emits. Qed.

Lemma getStreamArn_emits dynamodb name :
  emits (λ e, e = Sleep pollInterval ∨ e = DescribeTableCall dynamodb name)
    (getStreamArn aws dynamodb name).
Proof.
  unfold getStreamArn. generalize (maxTries - 1)%nat. intros n.
  induction n as [|n IH]; simpl.
  - apply emits_bind; [apply emits_sleep; by left|intros ?].
    apply emits_bind; [|intros ?; emits].
    eapply emits_weaken; [|apply describeTable_emits]. intros e ->. by right.
  - apply emits_bind; [apply emits_sleep; by left|intros ?].
    apply emits_bind; [|intros ?; emits; exact IH].
    eapply emits_weaken; [|apply describeTable_emits]. intros e ->. by right.
Qed.

Lemma createTable_emits dynamodb name attrs keys gsis lsis stream :
  emits (λ e, on_table dynamodb name e ∧ is_create_call e = true)
    (createTable aws dynamodb name attrs keys gsis lsis stream).
Proof. unfold createTable. emits. Qed.

Lemma updateTable_emits dynamodb prev cur name attrs prevStream stream :
  emits (λ e, on_table dynamodb name e ∧ is_create_call e = false
              ∧ is_delete_call e = false)
    (updateTable aws dynamodb prev cur name attrs prevStream stream).
Proof.
  unfold updateTable, streamArn_after_update. emits.
Qed.

Lemma waitForActive_emits dynamodb name :
  emits (λ e, e = WaitForCall dynamodb name) (waitForActive aws dynamodb name).
Proof. unfold waitForActive. emits. Qed.

Lemma updateReplicas_emits dynamodb name prev cur :
  emits (λ e, on_table dynamodb name e ∧ is_create_call e = false
              ∧ is_delete_call e = false ∧ is_sleep e = false)
    (updateReplicas aws dynamodb name prev cur).
Proof.
  unfold updateReplicas. emits.
Qed.

Lemma deleteReplicas_emits dynamodb name replicas :
  emits (remove_event dynamodb name) (deleteReplicas aws dynamodb name replicas).
Proof.
  unfold deleteReplicas. emits.
Qed.

Lemma deleteTable_emits dynamodb name :
  emits (remove_event dynamodb name) (deleteTable aws dynamodb name).
Proof. unfold deleteTable. emits. Qed.

Lemma resolve_name_emits P random config :
  emits P (resolve_name (W:=W) random config).
Proof. unfold resolve_name. emits. Qed.

Lemma create_or_update_emits dynamodb prevTable config :
  emits (deploy_event dynamodb (Config.name config))
    (create_or_update aws dynamodb prevTable config).
Proof.
  unfold create_or_update. destruct prevTable.
  - apply emits_bind; [|intros []; emits].
    eapply emits_weaken; [|apply createTable_emits].
    intros e [? ?]. split; [done|]. by destruct e.
  - apply emits_bind; [|intros []; emits].
    eapply emits_weaken; [|apply createTable_emits].
    intros e [? ?]. split; [done|]. by destruct e.
  - apply emits_bind; [apply emits_get_state|intros ?].
    case_match; [apply emits_throw|].
    apply emits_bind; [|intros []; emits].
    eapply emits_weaken; [|apply updateTable_emits].
    intros e (? & ? & ?). by split.
Qed.

Lemma create_or_update_keeps_identity dynamodb prevTable config (m : Machine W)
    config' m' :
  create_or_update aws dynamodb prevTable config m = (Return config', m') →
  Config.name config' = Config.name config
  ∧ Config.region config' = Config.region config
  ∧ Config.replicas config' = Config.replicas config
  ∧ Config.deletionPolicy config' = Config.deletionPolicy config.
Proof.
  unfold create_or_update. destruct prevTable.
  - unfold bind. destruct (createTable _ _ _ _ _ _ _ _ _) as [[[a s]|e] m1];
      [|done]. by intros [= <- _].
  - unfold bind. destruct (createTable _ _ _ _ _ _ _ _ _) as [[[a s]|e] m1];
      [|done]. by intros [= <- _].
  - unfold bind at 1. unfold get_state. case_match; [done|].
    unfold bind. destruct (updateTable _ _ _ _ _ _ _ _ _) as [[[a s]|e] m1];
      [|done]. by intros [= <- _].
Qed.

End Emits.

(** ** Removal, as a whole *)

(** Every call of [remove] goes through the client of the recorded
    region and names the recorded table; [remove] never creates a table
    and never sleeps. *)
Theorem remove_issues_on_its_table {W} (aws : DynamoDB W) (m : Machine W) :
  let r := remove aws m in
  ∃ evs,
    trace r.2 = trace m ++ evs
    ∧ Forall (remove_event (State.region (state m)) (State.name (state m))) evs.
Proof.
  intros r. unfold r, remove. unfold bind at 1. unfold get_state.
  match goal with |- ∃ evs, trace (?c m).2 = _ ∧ Forall ?P evs =>
    cut (emits P c); [intros H; exact (H m)|]
  end.
  destruct (_ || _); [apply emits_ret|].
  destruct (negb _); [apply emits_ret|].
  apply emits_bind.
  - eapply emits_weaken; [|apply describeTable_emits]. intros e ->. by repeat split.
  - intros [| |t]; try apply emits_throw.
    apply emits_bind; [apply deleteReplicas_emits|intros ?].
    apply emits_bind; [apply deleteTable_emits|intros ?].
    apply emits_bind; [apply emits_get_state|intros ?].
    apply emits_bind; [apply emits_put_state|intros ?].
    apply emits_ret.
Qed.

(** [remove], step by step. *)
Lemma remove_unfold {W} (aws : DynamoDB W) (m : Machine W) :
  let dynamodb : Client := State.region (state m) in
  let name := State.name (state m) in
  let m1 :=
    {| world := (sdk_describeTable aws dynamodb name (world m)).2;
       trace := trace m ++ [DescribeTableCall dynamodb name];
       state := state m |} in
  remove aws m =
    if negb (truthy (State.deletionPolicy (state m)))
       || negb (bool_decide (State.deletionPolicy (state m) = Some "delete"))
    then (Return (Some Outputs.empty), m)
    else if negb (truthy name) then (Return None, m)
    else
      match (sdk_describeTable aws dynamodb name (world m)).1 with
      | inl _ => (Throw TypeError, m1)
      | inr data =>
          match deleteReplicas aws dynamodb name (TableDescription.Replicas data) m1 with
          | (Throw e, m2) => (Throw e, m2)
          | (Return _, m2) =>
              match (deleteTable aws dynamodb name m2).1 with
              | Throw e => (Throw e, (deleteTable aws dynamodb name m2).2)
              | Return _ =>
                  (Return (Some (Outputs.of_state (state m2))),
                   {| world := world (deleteTable aws dynamodb name m2).2;
                      trace := trace (deleteTable aws dynamodb name m2).2;
                      state := State.empty |})
              end
          end
      end.
Proof.
  cbv zeta. unfold remove. unfold bind at 1. unfold get_state.
  destruct (_ || _); [done|]. destruct (negb _); [done|].
  unfold bind at 1. rewrite describeTable_run.
  destruct (sdk_describeTable _ _ _ _).1 as [err|data]; [by case_bool_decide|].
  cbv beta iota. unfold bind at 1. cbn [TableView.replicas TableView.of_description].
  destruct (deleteReplicas _ _ _ _ _) as [[[]|e] m2]; [|done].
  unfold bind at 1.
  pose proof (only_issues_deleteTable aws (State.region (state m))
                (State.name (state m)) m2) as [Hs _].
  destruct (deleteTable _ _ _ m2) as [[b|e] m3]; [|done].
  cbn [snd fst] in *. unfold bind, put_state, ret. by rewrite Hs.
Qed.

(** [remove] empties the component state only when the teardown went
    through.  A run that throws keeps the state as it was; a run that is
    skipped (policy not ["delete"], or no name) keeps the whole machine;
    and a run that tears down ends with the delete-table call, returns
    the outputs picked from the state it started with, and leaves the
    empty state. *)
Theorem remove_clears_state_only_on_success {W} (aws : DynamoDB W) (m : Machine W) :
  let r := remove aws m in
  (∃ e, r.1 = Throw e ∧ state r.2 = state m)
  ∨ (r.2 = m ∧ (r.1 = Return (Some Outputs.empty) ∨ r.1 = Return None))
  ∨ (r.1 = Return (Some (Outputs.of_state (state m)))
     ∧ state r.2 = State.empty
     ∧ State.deletionPolicy (state m) = Some "delete"
     ∧ ∃ evs, trace r.2
              = trace m ++ evs
                ++ [DeleteTableCall (State.region (state m)) (State.name (state m))]).
Proof.
  intros r. unfold r. rewrite remove_unfold. cbv zeta.
  destruct (negb (truthy (State.deletionPolicy (state m)))
            || negb (bool_decide (State.deletionPolicy (state m) = Some "delete")))
    eqn:Hpolicy.
  { right. left. split; [done|]. by left. }
  destruct (negb (truthy (State.name (state m)))) eqn:Hname.
  { right. left. split; [done|]. by right. }
  assert (Hdelete : State.deletionPolicy (state m) = Some "delete").
  { apply orb_false_iff in Hpolicy as [_ Hp]. apply negb_false_iff in Hp.
    by apply bool_decide_eq_true in Hp. }
  set (m1 := {| world := _; trace := trace m ++ [_]; state := state m |}).
  destruct (sdk_describeTable _ _ _ _).1 as [err|data].
  { left. by exists TypeError. }
  pose proof (only_issues_deleteReplicas aws (State.region (state m))
                (State.name (state m)) (TableDescription.Replicas data) m1)
    as [Hs2 [evs2 Ht2]].
  destruct (deleteReplicas _ _ _ _ m1) as [[[]|e] m2]; cbn [snd] in Hs2, Ht2.
  2: { left. exists e. split; [done|exact Hs2]. }
  rewrite deleteTable_run. cbn [fst snd].
  destruct (match (sdk_deleteTable _ _ _ _).1 with inl _ => _ | inr _ => _ end)
    as [b|e] eqn:Hdel.
  - right. right. cbn [fst snd state trace].
    rewrite Hs2. split; [done|]. split; [done|]. split; [done|].
    exists (DescribeTableCall (State.region (state m)) (State.name (state m)) :: evs2).
    rewrite Ht2. subst m1. cbn [trace]. by rewrite <- !app_assoc.
  - left. exists e. split; [done|exact Hs2].
Qed.

(** ** Deployment, as a whole *)

(** [deploy] refuses before it touches anything: without credentials,
    and, with credentials, when the inputs name a table other than the
    recorded one.  No provider call is issued and the component state is
    not written. *)
Theorem deploy_refuses_before_any_call {W} (aws : DynamoDB W) credentials random
    inputs (m : Machine W) :
  let r := deploy aws credentials random inputs m in
  (credentials = [] → r = (Throw CredentialsNotFound, m))
  ∧ (credentials ≠ [] →
     truthy (Inputs.name inputs) = true →
     truthy (State.name (state m)) = true →
     Inputs.name inputs ≠ State.name (state m) →
     r = (Throw NameChangeError, m)).
Proof.
  intros r. unfold r. rewrite deploy_unfold. split.
  - by intros ->.
  - intros Hcred Hin Hst Hne.
    rewrite bool_decide_eq_false_2 by (destruct credentials; [done|simpl; lia]).
    destruct (resolve_name_cases random (mergeDeepRight_defaults inputs) m)
      as [(-> & _)|[(n & _ & Hfalsy & _)|(_ & _ & Heq)]]; [done|congruence|].
    by destruct Hne, Heq.
Qed.

Section DeployRuns.
Context {W : Type} (aws : DynamoDB W).

Lemma create_or_update_sets_arns dynamodb prevTable config (m : Machine W)
    config' m' :
  create_or_update aws dynamodb prevTable config m = (Return config', m') →
  is_Some (Config.arn config') ∧ is_Some (Config.streamArn config').
Proof.
  unfold create_or_update. destruct prevTable.
  - unfold bind. destruct (createTable _ _ _ _ _ _ _ _ _) as [[[a s]|e] m1];
      [|done]. intros [= <- _]. by split.
  - unfold bind. destruct (createTable _ _ _ _ _ _ _ _ _) as [[[a s]|e] m1];
      [|done]. intros [= <- _]. by split.
  - unfold bind at 1. unfold get_state. case_match; [done|].
    unfold bind. destruct (updateTable _ _ _ _ _ _ _ _ _) as [[[a s]|e] m1];
      [|done]. intros [= <- _]. by split.
Qed.

(** A run of [deploy] past name resolution: it starts with the describe
    call, stays on its table, and a returning run has recorded the
    configuration it returns. *)
Lemma deploy_after_resolve credentials random inputs (m : Machine W) config0 m0 :
  credentials ≠ [] →
  resolve_name random (mergeDeepRight_defaults inputs) m = (Return config0, m0) →
  let r := deploy aws credentials random inputs m in
  let dynamodb : Client := Some (Config.region config0) in
  ∃ rest,
    trace r.2 = trace m ++ DescribeTableCall dynamodb (Config.name config0) :: rest
    ∧ Forall (deploy_event dynamodb (Config.name config0)) rest
    ∧ (∀ out, r.1 = Return out →
         ∃ config,
           out = Outputs.of_config config
           ∧ state r.2 = recorded_state config
           ∧ Config.name config = Config.name config0
           ∧ Config.region config = Config.region config0
           ∧ Config.deletionPolicy config = Config.deletionPolicy config0
           ∧ is_Some (Config.arn config) ∧ is_Some (Config.streamArn config))
    ∧ (∀ e, r.1 = Throw e → State.name (state r.2) = State.name (state m0)
                            ∨ State.name (state r.2) = Config.name config0).
Proof.
  intros Hcred Hresolve r dynamodb. unfold r. rewrite deploy_unfold.
  rewrite bool_decide_eq_false_2 by (destruct credentials; [done|simpl; lia]).
  rewrite Hresolve. cbv zeta. fold dynamodb.
  apply resolve_name_returns in Hresolve as (_ & Htr0 & _).
  rewrite describeTable_run. rewrite Htr0.
  set (prevTable := match _ with inl _ => _ | inr _ => _ end).
  set (m1 := {| world := _; trace := trace m ++ [_]; state := state m0 |}).
  destruct (create_or_update_emits aws dynamodb prevTable config0 m1)
    as (evs1 & Ht1 & Hevs1).
  pose proof (only_issues_create_or_update aws dynamodb prevTable config0 m1)
    as [Hs1 _].
  destruct (create_or_update aws dynamodb prevTable config0 m1)
    as [[config|e] m2] eqn:Hstep; cbn [snd] in Ht1, Hs1.
  2: { exists evs1. split; [|split; [done|split; [done|]]].
       - cbn [snd]. rewrite Ht1. subst m1. cbn [trace]. by rewrite <- app_assoc.
       - intros e' _. left. cbn [snd]. by rewrite Hs1. }
  destruct (create_or_update_keeps_identity aws _ _ _ _ _ _ Hstep)
    as (Hname & Hregion & _ & Hpolicy).
  destruct (create_or_update_sets_arns _ _ _ _ _ _ Hstep) as [Harn Hsarn].
  match goal with |- context [updateReplicas aws ?d ?n ?p ?c ?mm] =>
    destruct (updateReplicas_emits aws d n p c mm) as (evs2 & Ht2 & Hevs2);
    pose proof (only_issues_updateReplicas aws d n p c mm) as [Hs2 _];
    destruct (updateReplicas aws d n p c mm) as [[[]|e] m4]
  end; cbn [snd trace state] in Ht2, Hs2;
    (exists (evs1 ++ evs2); split; [|split; [|split]]).
  - cbn [snd]. rewrite Ht2, Ht1. subst m1. cbn [trace]. by rewrite <- !app_assoc.
  - apply Forall_app. split; [done|]. rewrite <- Hname.
    eapply list.Forall_impl; [exact Hevs2|]. intros ev (? & ? & ? & ?). by split.
  - intros out [= <-]. exists config. cbn [snd]. by rewrite Hs2.
  - done.
  - cbn [snd]. rewrite Ht2, Ht1. subst m1. cbn [trace]. by rewrite <- !app_assoc.
  - apply Forall_app. split; [done|]. rewrite <- Hname.
    eapply list.Forall_impl; [exact Hevs2|]. intros ev (? & ? & ? & ?). by split.
  - done.
  - intros e' _. right. cbn [snd]. by rewrite Hs2.
Qed.

End DeployRuns.

(** Every call of [deploy] goes through one client, that of the
    effective region, and names one table, which is the table of the
    inputs when they name one.  [deploy] never deletes a table. *)
Theorem deploy_issues_on_its_table {W} (aws : DynamoDB W) credentials random
    inputs (m : Machine W) :
  let r := deploy aws credentials random inputs m in
  let dynamodb : Client := Some (default "us-east-1" (Inputs.region inputs)) in
  ∃ evs name,
    trace r.2 = trace m ++ evs
    ∧ Forall (deploy_event dynamodb name) evs
    ∧ (truthy (Inputs.name inputs) = true → name = Inputs.name inputs).
Proof.
  intros r dynamodb.
  destruct (decide (credentials = [])) as [->|Hcred].
  { exists [], (Inputs.name inputs). unfold r. rewrite deploy_unfold.
    rewrite bool_decide_eq_true_2 by done. cbn [snd].
    rewrite app_nil_r. split; [done|]. split; [constructor|done]. }
  destruct (resolve_name random (mergeDeepRight_defaults inputs) m)
    as [[config0|e] m0] eqn:Hresolve.
  - destruct (deploy_after_resolve aws credentials random inputs m config0 m0
                Hcred Hresolve) as (rest & Htrace & Hrest & _).
    apply resolve_name_returns in Hresolve as (_ & _ & Hregion & _ & _ & Hname & _).
    cbn [Config.region Config.name mergeDeepRight_defaults] in Hregion, Hname.
    rewrite Hregion in Htrace, Hrest. fold dynamodb in Htrace, Hrest.
    exists (DescribeTableCall dynamodb (Config.name config0) :: rest),
      (Config.name config0).
    split; [exact Htrace|]. split.
    + constructor; [by repeat split|done].
    + intros Hin. by rewrite Hin in Hname.
  - exists [], (Inputs.name inputs). unfold r. rewrite deploy_unfold.
    rewrite bool_decide_eq_false_2 by (destruct credentials; [done|simpl; lia]).
    rewrite Hresolve. cbn [snd].
    destruct (resolve_name_cases random (mergeDeepRight_defaults inputs) m)
      as [(H & _)|[(n & H & _)|(H & _)]]; rewrite H in Hresolve; try done.
    injection Hresolve as _ <-. rewrite app_nil_r.
    split; [done|]. split; [constructor|done].
Qed.

(** A deploy of [orders] whose table exists: a describe call and an
    update call, both for [orders] in [us-east-1]. *)
Example deploy_issues_on_orders :
  trace (deploy scripted some_credentials "x1" (orders_inputs None None None)
           (start [inr bare_orders; inr bare_orders] (orders_state None))).2
  = [ DescribeTableCall (Some "us-east-1") (Some "orders");
      UpdateTableCall (Some "us-east-1")
        (updateTable_params (Some "orders")
           [ {| AttributeName := "id"; AttributeType := "S" |} ]
           {| Create := None; Delete := None |} None) ].
Proof. reflexivity. Qed.

(** When the inputs carry no name and the component state records one,
    [deploy] does not fall back to the recorded name: the describe call is
    issued with the missing name of the inputs, and a run that returns has
    overwritten the recorded name with it. *)
Theorem deploy_without_name_ignores_recorded_name {W} (aws : DynamoDB W)
    credentials random inputs (m : Machine W) :
  credentials ≠ [] →
  truthy (Inputs.name inputs) = false →
  truthy (State.name (state m)) = true →
  let r := deploy aws credentials random inputs m in
  let dynamodb : Client := Some (default "us-east-1" (Inputs.region inputs)) in
  (∃ rest, trace r.2
           = trace m ++ DescribeTableCall dynamodb (Inputs.name inputs) :: rest)
  ∧ (∀ out, r.1 = Return out →
       Outputs.name out = Inputs.name inputs
       ∧ State.name (state r.2) = Inputs.name inputs
       ∧ State.name (state r.2) ≠ State.name (state m)).
Proof.
  intros Hcred Hin Hst r dynamodb.
  assert (Hresolve : resolve_name random (mergeDeepRight_defaults inputs) m
                     = (Return (mergeDeepRight_defaults inputs), m)).
  { unfold resolve_name, bind, get_state.
    cbn [Config.name mergeDeepRight_defaults]. by rewrite Hin, Hst. }
  destruct (deploy_after_resolve aws credentials random inputs m _ _ Hcred Hresolve)
    as (rest & Htrace & _ & Hret & _).
  split; [by exists rest|].
  intros out Hout. destruct (Hret out Hout) as (config & -> & Hstate & Hname & _).
  fold r in Hstate. rewrite Hstate. cbn [Outputs.name Outputs.of_config State.name
                                          recorded_state].
  rewrite Hname. cbn [Config.name mergeDeepRight_defaults].
  split; [done|]. split; [done|]. intros Heq. rewrite Heq, Hst in Hin. done.
Qed.

(** A second deploy of [orders] without a name. *)
Lemma deploy_without_name_ignores_recorded_name_witness :
  let inputs :=
    {| Inputs.attributeDefinitions := None; Inputs.keySchema := None;
       Inputs.globalSecondaryIndexes := None; Inputs.localSecondaryIndexes := None;
       Inputs.name := None; Inputs.region := None; Inputs.replicas := None;
       Inputs.stream := None; Inputs.deletionPolicy := None |} in
  let m := start [inl not_found; inr plain_orders] (orders_state None) in
  ∃ rest,
    trace (deploy scripted some_credentials "x1" inputs m).2
    = trace m ++ DescribeTableCall (Some "us-east-1") None :: rest.
Proof.
  refine (proj1
    (deploy_without_name_ignores_recorded_name scripted some_credentials "x1"
       {| Inputs.attributeDefinitions := None; Inputs.keySchema := None;
          Inputs.globalSecondaryIndexes := None; Inputs.localSecondaryIndexes := None;
          Inputs.name := None; Inputs.region := None; Inputs.replicas := None;
          Inputs.stream := None; Inputs.deletionPolicy := None |}
       (start [inl not_found; inr plain_orders] (orders_state None)) _ _ _)).
  - discriminate.
  - reflexivity.
  - reflexivity.
Defined.

(** On a first deploy without a name, the table is named
    ["dynamodb-table-"] followed by the random suffix.  The name is in
    the component state from then on, whether the run returns or throws,
    it is the name of the describe call, and it is the name of the
    outputs. *)
Theorem first_deploy_synthesizes_name {W} (aws : DynamoDB W) credentials random
    inputs (m : Machine W) :
  credentials ≠ [] →
  truthy (Inputs.name inputs) = false →
  truthy (State.name (state m)) = false →
  let r := deploy aws credentials random inputs m in
  let dynamodb : Client := Some (default "us-east-1" (Inputs.region inputs)) in
  let name := Some (String.append "dynamodb-table-" random) in
  (∃ rest, trace r.2 = trace m ++ DescribeTableCall dynamodb name :: rest)
  ∧ State.name (state r.2) = name
  ∧ (∀ out, r.1 = Return out → Outputs.name out = name).
Proof.
  intros Hcred Hin Hst r dynamodb name.
  destruct (resolve_name random (mergeDeepRight_defaults inputs) m)
    as [[config0|e] m0] eqn:Hresolve.
  2: { destruct (resolve_name_cases random (mergeDeepRight_defaults inputs) m)
         as [(_ & _ & H & _)|[(n & H & _)|(_ & H & _)]]; congruence. }
  destruct (deploy_after_resolve aws credentials random inputs m config0 m0
              Hcred Hresolve) as (rest & Htrace & _ & Hret & Hthrow).
  apply resolve_name_returns in Hresolve as (_ & _ & Hregion & _ & _ & Hname & Hstate).
  cbn [Config.region Config.name mergeDeepRight_defaults] in Hregion, Hname.
  rewrite Hin, Hst in Hname. rewrite Hst in Hstate. fold name in Hname.
  rewrite Hregion, Hname in Htrace. fold r in Htrace, Hret, Hthrow.
  split; [by exists rest|].
  assert (Hm0 : State.name (state m0) = name) by (by rewrite Hstate, Hname).
  split.
  - destruct r.1 as [out|e] eqn:Hout.
    + destruct (Hret out eq_refl) as (config & _ & -> & Hn & _).
      cbn [State.name recorded_state]. congruence.
    + destruct (Hthrow e eq_refl); congruence.
  - intros out Hout. destruct (Hret out Hout) as (config & -> & _ & Hn & _).
    cbn [Outputs.name Outputs.of_config]. congruence.
Qed.

(** A first deploy with empty inputs. *)
Lemma first_deploy_synthesizes_name_witness :
  let r := deploy scripted some_credentials "k3x9q" Inputs.empty
             (start [inl not_found; inr plain_orders] State.empty) in
  State.name (state r.2) = Some "dynamodb-table-k3x9q".
Proof.
  refine (proj1 (proj2
    (first_deploy_synthesizes_name scripted some_credentials "k3x9q" Inputs.empty
       (start [inl not_found; inr plain_orders] State.empty) _ _ _))).
  - discriminate.
  - reflexivity.
  - reflexivity.
Defined.

(** When [deploy] returns, its outputs are the name, arn, region and
    stream identifier now in the component state; the arn and the stream
    identifier are set, the recorded region is the effective region, and
    the recorded deletion policy is that of the inputs. *)
Theorem deploy_outputs_are_recorded {W} (aws : DynamoDB W) credentials random
    inputs (m : Machine W) out :
  let r := deploy aws credentials random inputs m in
  r.1 = Return out →
  out = Outputs.of_state (state r.2)
  ∧ is_Some (State.arn (state r.2))
  ∧ is_Some (State.streamArn (state r.2))
  ∧ State.region (state r.2) = Some (default "us-east-1" (Inputs.region inputs))
  ∧ State.deletionPolicy (state r.2) = Inputs.deletionPolicy inputs.
Proof.
  intros r Hout.
  destruct (decide (credentials = [])) as [->|Hcred].
  { unfold r in Hout. rewrite deploy_unfold in Hout. done. }
  destruct (resolve_name random (mergeDeepRight_defaults inputs) m)
    as [[config0|e] m0] eqn:Hresolve.
  2: { unfold r in Hout. rewrite deploy_unfold in Hout.
       rewrite bool_decide_eq_false_2 in Hout
         by (destruct credentials; [done|simpl; lia]).
       by rewrite Hresolve in Hout. }
  destruct (deploy_after_resolve aws credentials random inputs m config0 m0
              Hcred Hresolve) as (rest & _ & _ & Hret & _).
  apply resolve_name_returns in Hresolve as (_ & _ & Hregion & _ & Hpolicy & _).
  cbn [Config.region Config.deletionPolicy mergeDeepRight_defaults] in Hregion, Hpolicy.
  destruct (Hret out Hout) as (config & -> & Hstate & _ & Hr & Hp & Harn & Hsarn).
  fold r in Hstate. rewrite Hstate.
  cbn [State.arn State.streamArn State.region State.deletionPolicy recorded_state].
  split; [done|]. split; [done|]. split; [done|]. split; congruence.
Qed.

(** The first deploy of [orders]. *)
Lemma deploy_outputs_are_recorded_witness :
  let r := deploy scripted some_credentials "x1" (orders_inputs None None None)
             (start [inl not_found; inr plain_orders] State.empty) in
  State.region (state r.2) = Some "us-east-1".
Proof.
  refine (proj1 (proj2 (proj2 (proj2
    (deploy_outputs_are_recorded scripted some_credentials "x1"
       (orders_inputs None None None)
       (start [inl not_found; inr plain_orders] State.empty)
       {| Outputs.name := Some "orders";
          Outputs.arn := Some "arn:aws:dynamodb:us-east-1:1:table/orders";
          Outputs.region := Some "us-east-1";
          Outputs.streamArn := Some ArnFalse |} _))))).
  reflexivity.
Defined.

(** [createTable], step by step. *)
Lemma createTable_run {W} (aws : DynamoDB W) dynamodb name attrs keys gsis lsis
    stream (m : Machine W) :
  let params :=
    {| CreateTableInput.TableName := name;
       CreateTableInput.AttributeDefinitions := attrs;
       CreateTableInput.KeySchema := keys;
       CreateTableInput.GlobalSecondaryIndexes :=
         if bool_decide (length gsis = 0%nat) then None else Some gsis;
       CreateTableInput.LocalSecondaryIndexes := lsis;
       CreateTableInput.BillingMode := "PAY_PER_REQUEST";
       CreateTableInput.StreamSpecification := stream |} in
  createTable aws dynamodb name attrs keys gsis lsis stream m =
    (match (sdk_createTable aws dynamodb params (world m)).1 with
     | inl err => Throw (SdkError err)
     | inr res =>
         Return (TableDescription.TableArn res,
                 if truthy (TableDescription.LatestStreamArn res)
                 then ArnString (default "" (TableDescription.LatestStreamArn res))
                 else ArnFalse)
     end,
     {| world := (sdk_createTable aws dynamodb params (world m)).2;
        trace := trace m ++ [CreateTableCall dynamodb params];
        state := state m |}).
Proof.
  cbv zeta. unfold createTable. cbv zeta. unfold bind. rewrite request_run.
  by destruct (sdk_createTable _ _ _ _).1.
Qed.

(** Whenever the describe call of [deploy] is rejected, for a missing
    table or for any other reason, [deploy] goes on to create the table,
    in the effective region and whatever region the component state
    records.  The create call omits the index list when it is empty.  A
    rejected create call is thrown, with the state as name resolution left
    it.  After an accepted one the recorded arn is that of the answer and
    the recorded stream identifier is the one in the answer, or [false]
    when the answer has none: the poller is not run on this path, even for
    an enabled stream. *)
Theorem deploy_creates_when_no_table_observed {W} (aws : DynamoDB W) credentials
    random inputs (m : Machine W) config0 m0 err :
  credentials ≠ [] →
  resolve_name random (mergeDeepRight_defaults inputs) m = (Return config0, m0) →
  let dynamodb : Client := Some (Config.region config0) in
  let name := Config.name config0 in
  (sdk_describeTable aws dynamodb name (world m)).1 = inl err →
  let params :=
    {| CreateTableInput.TableName := name;
       CreateTableInput.AttributeDefinitions := Config.attributeDefinitions config0;
       CreateTableInput.KeySchema := Config.keySchema config0;
       CreateTableInput.GlobalSecondaryIndexes :=
         if bool_decide (length (Config.globalSecondaryIndexes config0) = 0%nat)
         then None else Some (Config.globalSecondaryIndexes config0);
       CreateTableInput.LocalSecondaryIndexes := Config.localSecondaryIndexes config0;
       CreateTableInput.BillingMode := "PAY_PER_REQUEST";
       CreateTableInput.StreamSpecification := Some (Config.stream config0) |} in
  let described := (sdk_describeTable aws dynamodb name (world m)).2 in
  let r := deploy aws credentials random inputs m in
  (∃ rest,
     trace r.2
     = trace m ++ DescribeTableCall dynamodb name
               :: CreateTableCall dynamodb params :: rest
     ∧ Forall (λ e, is_sleep e = false ∧ is_create_call e = false) rest)
  ∧ (CreateTableInput.GlobalSecondaryIndexes params = None
     ↔ Config.globalSecondaryIndexes config0 = [])
  ∧ (∀ err', (sdk_createTable aws dynamodb params described).1 = inl err' →
       r.1 = Throw (SdkError err') ∧ state r.2 = state m0)
  ∧ (∀ res, (sdk_createTable aws dynamodb params described).1 = inr res →
       State.arn (state r.2) = Some (TableDescription.TableArn res)
       ∧ State.streamArn (state r.2)
         = Some (if truthy (TableDescription.LatestStreamArn res)
                 then ArnString (default "" (TableDescription.LatestStreamArn res))
                 else ArnFalse)).
Proof.
  intros Hcred Hresolve dynamodb name Herr params described r.
  assert (Hrun :
    r = match (sdk_createTable aws dynamodb params described).1 with
        | inl err' =>
            (Throw (SdkError err'),
             {| world := (sdk_createTable aws dynamodb params described).2;
                trace := trace m ++ [DescribeTableCall dynamodb name;
                                     CreateTableCall dynamodb params];
                state := state m0 |})
        | inr res =>
            let config :=
              Config.set_arns (Some (TableDescription.TableArn res))
                (Some (if truthy (TableDescription.LatestStreamArn res)
                       then ArnString (default "" (TableDescription.LatestStreamArn res))
                       else ArnFalse)) config0 in
            match updateReplicas aws dynamodb name (Some [])
                    (Some (Config.replicas config0))
                    {| world := (sdk_createTable aws dynamodb params described).2;
                       trace := trace m ++ [DescribeTableCall dynamodb name;
                                            CreateTableCall dynamodb params];
                       state := recorded_state config |} with
            | (Throw e, m4) => (Throw e, m4)
            | (Return _, m4) => (Return (Outputs.of_config config), m4)
            end
        end).
  { unfold r. rewrite deploy_unfold.
    rewrite bool_decide_eq_false_2 by (destruct credentials; [done|simpl; lia]).
    rewrite Hresolve. cbv zeta. fold dynamodb name.
    apply resolve_name_returns in Hresolve as (Hw0 & Htr0 & _).
    rewrite describeTable_run, Hw0, Htr0, Herr. fold described.
    assert (∀ prevTable, prevTable = Null ∨ prevTable = Undefined →
      create_or_update aws dynamodb prevTable config0
        {| world := described; trace := trace m ++ [DescribeTableCall dynamodb name];
           state := state m0 |}
      = match (sdk_createTable aws dynamodb params described).1 with
        | inl err' =>
            (Throw (SdkError err'),
             {| world := (sdk_createTable aws dynamodb params described).2;
                trace := trace m ++ [DescribeTableCall dynamodb name;
                                     CreateTableCall dynamodb params];
                state := state m0 |})
        | inr res =>
            (Return
               (Config.set_arns (Some (TableDescription.TableArn res))
                  (Some (if truthy (TableDescription.LatestStreamArn res)
                         then ArnString
                                (default "" (TableDescription.LatestStreamArn res))
                         else ArnFalse)) config0),
             {| world := (sdk_createTable aws dynamodb params described).2;
                trace := trace m ++ [DescribeTableCall dynamodb name;
                                     CreateTableCall dynamodb params];
                state := state m0 |})
        end) as Hcreate.
    { intros prevTable [-> | ->]; unfold create_or_update, bind;
        rewrite createTable_run; cbn [world trace state]; fold name params;
        rewrite <- app_assoc; by destruct (sdk_createTable _ _ _ _).1. }
    case_bool_decide; (rewrite Hcreate; [|by auto]);
      by destruct (sdk_createTable _ _ _ _).1. }
  split; [|split; [|split]].
  - destruct (sdk_createTable aws dynamodb params described).1 as [err'|res].
    + exists []. rewrite Hrun. split; [done|constructor].
    + cbv zeta in Hrun.
      match type of Hrun with context [updateReplicas aws ?d ?n ?p ?c ?mm] =>
        destruct (updateReplicas_emits aws d n p c mm) as (evs & Ht & Hevs);
        destruct (updateReplicas aws d n p c mm) as [[[]|e] m4]
      end; cbn [snd trace] in Ht; exists evs; rewrite Hrun; cbn [snd];
        (split; [by rewrite Ht, <- app_assoc|]);
        (eapply list.Forall_impl; [exact Hevs|]); by intros e' (_ & ? & _ & ?).
  - cbn [CreateTableInput.GlobalSecondaryIndexes params].
    destruct (Config.globalSecondaryIndexes config0); by case_bool_decide.
  - intros err' Herr'. rewrite Herr' in Hrun. by rewrite Hrun.
  - intros res Hres. rewrite Hres in Hrun. cbv zeta in Hrun.
    match type of Hrun with context [updateReplicas aws ?d ?n ?p ?c ?mm] =>
      pose proof (only_issues_updateReplicas aws d n p c mm) as [Hs _];
      destruct (updateReplicas aws d n p c mm) as [[[]|e] m4]
    end; cbn [snd state] in Hs; rewrite Hrun; cbn [snd]; by rewrite Hs.
Qed.

(** The describe call is rejected for lack of access rights, the recorded
    region is another one, and the table is created all the same; its
    stream is enabled and the answer carries no identifier. *)
Lemma deploy_creates_when_no_table_observed_witness :
  let inputs := orders_inputs (Some "eu-west-1") (Some stream_on) None in
  let r := deploy scripted some_credentials "x1" inputs
             (start [inl access_denied; inr plain_orders] (orders_state None)) in
  State.arn (state r.2) = Some "arn:aws:dynamodb:us-east-1:1:table/orders"
  ∧ State.streamArn (state r.2) = Some ArnFalse.
Proof.
  refine (proj2 (proj2 (proj2
    (deploy_creates_when_no_table_observed scripted some_credentials "x1"
       (orders_inputs (Some "eu-west-1") (Some stream_on) None)
       (start [inl access_denied; inr plain_orders] (orders_state None))
       (mergeDeepRight_defaults (orders_inputs (Some "eu-west-1") (Some stream_on) None))
       (start [inl access_denied; inr plain_orders] (orders_state None))
       access_denied _ _ _))) plain_orders _).
  - discriminate.
  - reflexivity.
  - reflexivity.
  - reflexivity.
Defined.
